(** * STR: quarterly long/short rebalancing

    A shallow embedding of the optimizer ([optimize_portfolio.py]), the
    backtester ([backtest.py]) and the orchestration that links them
    ([STRRunner.create_portfolios], [run_backtest], [grid_search]).

    Conventions of the embedding.
    - A Python float is idealised as a real number; a cell that may hold NaN
      (or any other non-finite float) is an [option R] with [None] for it.
    - A [pd.Timestamp] is the integer number of its day.
    - A Python exception is the [Raised] branch of [outcome].
    - The dictionary [optimized_portfolios] is a [gmap] keyed by day; the
      insertion-ordered dictionary [constituent_data], which the runner
      iterates, is an association list.
    - The external MILP solver is a function from the formulated problem to
      the status and variable values it reports; constraints are read
      exactly, without a numerical tolerance.  A problem the libraries refuse
      before any status exists (no asset at all, or an objective with an
      entry that is not finite) never reaches it.
    - The date index of the return table is a list of days; label slices
      follow [Index.slice_locs], which on an ascending index never fails. *)

From Stdlib Require Import Reals Lra.
From stdpp Require Import gmap strings list.

(** ** Exceptions *)

(** [ValueError msg] is a [ValueError] the program itself raises, with its
    message; [LibraryValueError] is a [ValueError] raised inside cvxpy or
    the solver interface, whose text is the library's own. *)
Inductive exn :=
| ValueError (msg : string)
| LibraryValueError
| KeyError
| IndexError
| TypeError
| AttributeError.

Inductive outcome (A : Type) :=
| Returned (a : A)
| Raised (e : exn).
Arguments Returned {A} a.
Arguments Raised {A} e.

Definition outcome_bind {A B} (m : outcome A) (k : A → outcome B) : outcome B :=
  match m with
  | Returned a => k a
  | Raised e => Raised e
  end.

Notation "'try' x ← m ; k" := (outcome_bind m (λ x, k))
  (at level 10, x name, m at level 100, k at level 200).
Notation "'try' ( x , y ) ← m ; k" := (outcome_bind m (λ '(x, y), k))
  (at level 10, x name, y name, m at level 100, k at level 200).

(** ** pandas: label slices of an index *)

Module pandas.

Inductive Side := side_left | side_right.

Definition flip_side (s : Side) : Side :=
  match s with side_left => side_right | side_right => side_left end.

Fixpoint is_monotonic_increasing (idx : list Z) : bool :=
  match idx with
  | x :: tl =>
      match tl with
      | y :: _ => (x <=? y)%Z && is_monotonic_increasing tl
      | [] => true
      end
  | [] => true
  end.

Fixpoint is_monotonic_decreasing (idx : list Z) : bool :=
  match idx with
  | x :: tl =>
      match tl with
      | y :: _ => (y <=? x)%Z && is_monotonic_decreasing tl
      | [] => true
      end
  | [] => true
  end.

(** [numpy.searchsorted] on an ascending array: the length of the prefix of
    elements below [v] ([side_left]) or not above it ([side_right]). *)
Fixpoint searchsorted (a : list Z) (v : Z) (side : Side) : nat :=
  match a with
  | [] => 0
  | x :: a' =>
      if (match side with side_left => x <? v | side_right => x <=? v end)%Z
      then S (searchsorted a' v side)
      else 0
  end.

(** Positions at which [label] occurs, counted from [k]. *)
Fixpoint positions_from (k : nat) (idx : list Z) (label : Z) : list nat :=
  match idx with
  | [] => []
  | x :: idx' =>
      if (x =? label)%Z then k :: positions_from (S k) idx' label
      else positions_from (S k) idx' label
  end.

(** [Index.get_slice_bound]: the position of the label when it occurs (its
    occurrences have to be contiguous); for an absent label the insertion
    point in a monotonic index, and [KeyError] in an unordered one. *)
Definition get_slice_bound (idx : list Z) (label : Z) (side : Side) : outcome nat :=
  match positions_from 0 idx label with
  | [] =>
      if is_monotonic_increasing idx then Returned (searchsorted idx label side)
      else if is_monotonic_decreasing idx then
        Returned (length idx - searchsorted (reverse idx) label (flip_side side))
      else Raised KeyError
  | p :: ps =>
      if bool_decide (ps = seq (S p) (length ps)) then
        Returned (match side with side_left => p | side_right => S p + length ps end)
      else Raised KeyError
  end.

(** [Index.slice_locs start stop]. *)
Definition slice_locs (idx : list Z) (start stop : Z) : outcome (nat * nat) :=
  try s ← get_slice_bound idx start side_left;
  try e ← get_slice_bound idx stop side_right;
  Returned (s, e).

(** The positional slice [l[s:e]]. *)
Definition islice {A} (s e : nat) (l : list A) : list A := take (e - s) (drop s l).

(** A frame of floats: column labels and date-labelled rows of cells. *)
Record DataFrame := {
  columns : list string;
  rows : list (Z * list (option R))
}.

Definition index (df : DataFrame) : list Z := (rows df).*1.

(** [df.loc[start:stop]]. *)
Definition loc_slice (df : DataFrame) (start stop : Z) : outcome DataFrame :=
  try (s, e) ← slice_locs (index df) start stop;
  Returned {| columns := columns df; rows := islice s e (rows df) |}.

(** [column.loc[start:stop] = values] for a series that carries the labels
    of the slice: its values are written position by position from the start
    of the slice. *)
Definition loc_assign (idx : list Z) (col : list (option R)) (start stop : Z)
    (values : list (Z * R)) : outcome (list (option R)) :=
  try (s, e) ← slice_locs idx start stop;
  Returned (list_inserts s (map (λ p, Some p.2) values) col).

(** First value stored under a label. *)
Fixpoint series_get {V} (c : string) (s : list (string * V)) : option V :=
  match s with
  | [] => None
  | (l, v) :: s' => if decide (l = c) then Some v else series_get c s'
  end.

(** The cell of a row in column [c]; NaN when the frame has no such column. *)
Definition cell_at (cols : list string) (cells : list (option R)) (c : string) : option R :=
  mjoin (series_get c (zip cols cells)).

Definition nan_mul (x y : option R) : option R :=
  match x, y with
  | Some a, Some b => Some (a * b)%R
  | _, _ => None
  end.

Definition union_labels (cols labels : list string) : list string :=
  cols ++ filter (λ l, l ∉ cols) labels.

(** [df * w]: the series is aligned with the columns, the result has the
    union of the labels, and a label missing on either side gives NaN.  The
    labels of each side are distinct, as the alignment requires. *)
Definition mul_series (df : DataFrame) (w : list (string * R)) : DataFrame :=
  let u := union_labels (columns df) (w.*1) in
  {| columns := u;
     rows := map (λ r, (r.1, map (λ c, nan_mul (cell_at (columns df) r.2 c) (series_get c w)) u))
                 (rows df) |}.

(** Sum of the cells that are not NaN. *)
Fixpoint nansum (cells : list (option R)) : R :=
  match cells with
  | [] => 0
  | Some v :: cells' => v + nansum cells'
  | None :: cells' => nansum cells'
  end%R.

(** [df.sum(axis=1)]. *)
Definition sum_axis1 (df : DataFrame) : list (Z * R) :=
  map (λ r, (r.1, nansum r.2)) (rows df).

Definition fillna (v : R) (col : list (option R)) : list R := map (default v) col.

Fixpoint cumprod_from (acc : R) (l : list R) : list R :=
  match l with
  | [] => []
  | x :: l' => (acc * x)%R :: cumprod_from (acc * x)%R l'
  end.

Definition cumprod (l : list R) : list R :=
  match l with
  | [] => []
  | x :: l' => x :: cumprod_from x l'
  end.

End pandas.
Import pandas.

(** ** Tables *)

(** A row of the universe handed to the optimizer; a field is [None] when
    the provider has no value for it. *)
Record RawAsset := {
  raw_ticker : string;
  raw_CUST_TRR_RETURN_HOLDING_PER : option R;
  raw_BETA_RAW_OVERRIDABLE : option R;
  raw_GICS_SECTOR_NAME : option string;
  raw_TURNOVER : option R
}.

(** A row that survived [dropna]. *)
Record Asset := {
  ticker : string;
  CUST_TRR_RETURN_HOLDING_PER : R;
  BETA_RAW_OVERRIDABLE : R;
  GICS_SECTOR_NAME : string;
  TURNOVER : R
}.

(** A row of the table [optimize_portfolio] returns. *)
Record PortfolioRow := {
  asset : Asset;
  Optimized_Weight : R
}.

(** The column ['Optimized Weight'], labelled by ticker. *)
Definition weight_series (pf : list PortfolioRow) : list (string * R) :=
  map (λ r, (ticker (asset r), Optimized_Weight r)) pf.

Record ScheduleRow := {
  Year : Z;
  Quarter : string;
  Second_to_Last_Friday : Z;
  Third_to_Last_Friday : Z;
  Third_to_Last_Thursday : Z;
  Second_to_last_friday_previous : Z
}.

(** ** backtest.py *)

Record StrategyReturns := {
  sr_index : list Z;
  Portfolio_Returns : list R;
  Cumulative_Returns : list R
}.

(** The body of the loop over [schedule.iterrows()], threading the column
    ['Portfolio Returns'] of [strategy_returns]. *)
Fixpoint backtest_loop (optimized_portfolios : gmap Z (list PortfolioRow))
    (schedule : list ScheduleRow) (daily_returns : DataFrame)
    (col : list (option R)) : outcome (list (option R)) :=
  match schedule with
  | [] => Returned col
  | row :: schedule' =>
      let third_to_last := Third_to_Last_Friday row in
      let second_to_last := Second_to_Last_Friday row in
      match optimized_portfolios !! third_to_last with
      | None => backtest_loop optimized_portfolios schedule' daily_returns col
      | Some pf =>
          let portfolio_weights := weight_series pf in
          try holding_period_returns ← loc_slice daily_returns third_to_last second_to_last;
          let portfolio_returns := sum_axis1 (mul_series holding_period_returns portfolio_weights) in
          try col' ← loc_assign (index daily_returns) col third_to_last second_to_last
                       portfolio_returns;
          backtest_loop optimized_portfolios schedule' daily_returns col'
      end
  end.

Definition backtest_strategy (optimized_portfolios : gmap Z (list PortfolioRow))
    (schedule : list ScheduleRow) (daily_returns : DataFrame) : outcome StrategyReturns :=
  let col0 := map (λ _, Some 0%R) (index daily_returns) in
  try col ← backtest_loop optimized_portfolios schedule daily_returns col0;
  let portfolio := fillna 0 col in
  Returned {| sr_index := index daily_returns;
              Portfolio_Returns := portfolio;
              Cumulative_Returns := cumprod (map (λ r, (1 + r)%R) portfolio) |}.

(** ** optimize_portfolio.py *)

Local Open Scope R_scope.

Definition Rsum (l : list R) : R := foldr Rplus 0 l.

(** [a @ b] for two arrays. *)
Definition dotR (a b : list R) : R := Rsum (zip_with Rmult a b).

(** [data.dropna(subset=[...])]: a row missing one of the four fields goes. *)
Definition dropna (data : list RawAsset) : list Asset :=
  omap (λ r,
    ret ← raw_CUST_TRR_RETURN_HOLDING_PER r;
    beta ← raw_BETA_RAW_OVERRIDABLE r;
    sector ← raw_GICS_SECTOR_NAME r;
    turnover ← raw_TURNOVER r;
    Some {| ticker := raw_ticker r;
            CUST_TRR_RETURN_HOLDING_PER := ret;
            BETA_RAW_OVERRIDABLE := beta;
            GICS_SECTOR_NAME := sector;
            TURNOVER := turnover |}) data.

(** [.replace(0, np.nan)] on one cell. *)
Definition replace_zero (x : option R) : option R :=
  match x with
  | Some v => if Req_dec_T v 0 then None else Some v
  | None => None
  end.

(** [np.log] on one cell; the logarithm of a float that is not positive is
    not a finite number. *)
Definition np_log (x : option R) : option R :=
  match x with
  | Some v => if Rlt_dec 0 v then Some (ln v) else None
  | None => None
  end.

Definition LOG_ADV (log : bool) (a : Asset) : option R :=
  if log then replace_zero (np_log (replace_zero (Some (TURNOVER a))))
  else replace_zero (replace_zero (Some (TURNOVER a))).

Definition nan_sub (x y : option R) : option R :=
  match x, y with
  | Some a, Some b => Some (a - b)
  | _, _ => None
  end.

(** Float division of two cells; a division by zero is not a finite number. *)
Definition nan_div (x y : option R) : option R :=
  match x, y with
  | Some a, Some b => if Req_dec_T b 0 then None else Some (a / b)
  | _, _ => None
  end.

Definition SIGNAL (log : bool) (a : Asset) : option R :=
  nan_div (Some (CUST_TRR_RETURN_HOLDING_PER a)) (LOG_ADV log a).

(** The values of a column that are not NaN. *)
Definition valid (col : list (option R)) : list R := omap (λ x, x) col.

(** [Series.mean()]: NaN is skipped; no value at all gives NaN. *)
Definition series_mean (col : list (option R)) : option R :=
  let vs := valid col in
  match vs with
  | [] => None
  | _ => Some (Rsum vs / INR (length vs))
  end.

(** [Series.std()]: NaN is skipped and the sum of squared deviations is
    divided by [count - ddof] with pandas' default [ddof = 1]; fewer than two
    values give NaN. *)
Definition series_std (col : list (option R)) : option R :=
  let vs := valid col in
  let ddof := 1%nat in
  if decide (length vs ≤ ddof)%nat then None
  else
    let avg := Rsum vs / INR (length vs) in
    let sqr := Rsum (map (λ v, (avg - v) * (avg - v)) vs) in
    Some (sqrt (sqr / INR (length vs - ddof))).

Definition Z_SCORE (log : bool) (data : list Asset) : list (option R) :=
  let signal := map (SIGNAL log) data in
  let mean_signal := series_mean signal in
  let std_signal := series_std signal in
  map (λ s, nan_div (nan_sub s mean_signal) std_signal) signal.

(** [pd.get_dummies(data["GICS_SECTOR_NAME"])]: one indicator column per
    distinct sector (pandas orders the columns by label, which the set of
    constraints built from them does not depend on). *)
Definition sector_dummies (data : list Asset) : list (string * list R) :=
  map (λ sector,
         (sector, map (λ a, if decide (GICS_SECTOR_NAME a = sector) then 1 else 0) data))
      (remove_dups (map GICS_SECTOR_NAME data)).

(** The cvxpy expressions and constraints the function builds, over the
    variables [longs], [shorts] (non-negative) and [z] (boolean). *)
Inductive Expr :=
| sum_longs
| sum_shorts
| dot_weights (coeffs : list R).

Inductive Constraint :=
| c_eq (e : Expr) (c : R)
| c_ge (e : Expr) (c : R)
| c_le (e : Expr) (c : R)
| c_longs_le_z (max_weight : R)
| c_shorts_le_not_z (max_weight : R).

Record Problem := {
  n_assets : nat;
  objective : list (option R);
  constraints : list Constraint
}.

(** What the solver leaves behind: [problem.status], [problem.value] and the
    [.value] of the three variables, arrays of [n_assets] entries. *)
Record Solution := {
  status : string;
  value : R;
  longs_value : nat → R;
  shorts_value : nat → R;
  z_value : nat → R
}.

Definition OPTIMAL : string := "optimal".

(** The array of a variable. *)
Definition array (n : nat) (v : nat → R) : list R := map v (seq 0 n).

(** [longs.value - shorts.value]. *)
Definition weights (n : nat) (s : Solution) : list R :=
  array n (λ i, longs_value s i - shorts_value s i).

Definition eval (n : nat) (e : Expr) (s : Solution) : R :=
  match e with
  | sum_longs => Rsum (array n (longs_value s))
  | sum_shorts => Rsum (array n (shorts_value s))
  | dot_weights coeffs => dotR coeffs (weights n s)
  end.

Definition holds (n : nat) (c : Constraint) (s : Solution) : Prop :=
  match c with
  | c_eq e b => eval n e s = b
  | c_ge e b => eval n e s >= b
  | c_le e b => eval n e s <= b
  | c_longs_le_z max_weight =>
      ∀ i, (i < n)%nat → longs_value s i <= max_weight * z_value s i
  | c_shorts_le_not_z max_weight =>
      ∀ i, (i < n)%nat → shorts_value s i <= max_weight * (1 - z_value s i)
  end.

(** The attributes of the variables: [nonneg=True] and [boolean=True]. *)
Definition in_domain (n : nat) (s : Solution) : Prop :=
  ∀ i, (i < n)%nat →
    0 <= longs_value s i ∧ 0 <= shorts_value s i ∧ (z_value s i = 0 ∨ z_value s i = 1).

Definition feasible (p : Problem) (s : Solution) : Prop :=
  in_domain (n_assets p) s ∧ Forall (λ c, holds (n_assets p) c s) (constraints p).

(** The problem handed to [cp.Problem]: minimise [weights @ Z_SCORE] under
    the constraints in the order the function appends them. *)
Definition formulate (data : list Asset) (beta_target_range sector_exposure_target : R * R)
    (max_weight : R) (log : bool) : Problem :=
  {| n_assets := length data;
     objective := Z_SCORE log data;
     constraints :=
       [ c_eq sum_longs 1; c_eq sum_shorts 1 ] ++
       [ c_longs_le_z max_weight; c_shorts_le_not_z max_weight ] ++
       [ c_ge (dot_weights (map BETA_RAW_OVERRIDABLE data)) beta_target_range.1;
         c_le (dot_weights (map BETA_RAW_OVERRIDABLE data)) beta_target_range.2 ] ++
       flat_map (λ col, [ c_ge (dot_weights col.2) sector_exposure_target.1;
                          c_le (dot_weights col.2) sector_exposure_target.2 ])
                (sector_dummies data) |}.

Definition failure_message (st : string) : string :=
  "Optimization failed. Status: " +:+ st.

(** The problems that reach the solver.  [cp.Variable(n_assets)] refuses an
    empty shape, and [problem.solve] refuses an objective with an entry that
    is not a finite number (a NaN z-score); either way a [ValueError] of the
    library leaves the function before [problem.status] is looked at. *)
Definition accepted (p : Problem) : Prop :=
  n_assets p ≠ 0%nat ∧ Forall is_Some (objective p).

#[global] Instance accepted_dec (p : Problem) : Decision (accepted p).
Proof. unfold accepted. apply _. Defined.

Definition optimize_portfolio (solver : Problem → Solution) (data : list RawAsset)
    (beta_target_range sector_exposure_target : R * R) (max_weight : R) (log : bool)
    : outcome (list PortfolioRow * R) :=
  let data := dropna data in
  let problem := formulate data beta_target_range sector_exposure_target max_weight log in
  if decide (accepted problem) then
    let solved := solver problem in
    let solution := value solved in
    if decide (status solved ≠ OPTIMAL) then
      Raised (ValueError (failure_message (status solved)))
    else
      Returned (zip_with (λ a w, {| asset := a; Optimized_Weight := w |})
                         data (weights (n_assets problem) solved),
                solution)
  else Raised LibraryValueError.

Local Close Scope R_scope.

(** ** STRRunner.py *)

(** The attributes of the runner that portfolio creation, the backtest and
    the parameter sweep read or write.  Pickling the portfolios to disk and
    the progress output are left out. *)
Record STRRunner := {
  schedule : option (list ScheduleRow);
  constituent_data : list (Z * list RawAsset);
  returns : DataFrame;
  optimized_portfolios : gmap Z (list PortfolioRow);
  solutions : gmap Z R;
  cumulative_strategy_returns : list (Z * R);
  strategy_returns : list (Z * R)
}.

(** One row of the table [grid_search] returns.  The Sharpe ratio and the
    maximum drawdown are further float statistics of the same slice of
    [strategy_returns]; they feed nothing back into the runner and are not
    part of this record. *)
Record GridResult := {
  beta_limit : R;
  sector_limit : R;
  grid_max_weight : R;
  grid_log : bool;
  final_cumulative_return : R
}.

Section runner.

Variable solver : Problem → Solution.

(** [self.schedule[self.schedule['Third-to-Last Thursday'] == key]
    ['Third-to-Last Friday'].iloc[0]].  The schedule is the frame
    [pd.DataFrame(results)] of get_fridays.py: built from no row at all it
    has no column, and the column access is a [KeyError]. *)
Definition friday_of (schedule : option (list ScheduleRow)) (key : Z) : outcome Z :=
  match schedule with
  | None => Raised TypeError
  | Some [] => Raised KeyError
  | Some table =>
      match filter (λ r, Third_to_Last_Thursday r = key) table with
      | [] => Raised IndexError
      | r :: _ => Returned (Third_to_Last_Friday r)
      end
  end.

(** The loop of [create_portfolios] over the keys of [constituent_data],
    threading the two dictionaries it assigns to. *)
Fixpoint create_portfolios_loop (schedule : option (list ScheduleRow))
    (items : list (Z * list RawAsset)) (beta_range sector_range : R * R)
    (max_weight : R) (log : bool)
    (portfolios : gmap Z (list PortfolioRow)) (sols : gmap Z R)
    : outcome (gmap Z (list PortfolioRow) * gmap Z R) :=
  match items with
  | [] => Returned (portfolios, sols)
  | (key, data) :: items' =>
      try date ← friday_of schedule key;
      match optimize_portfolio solver data beta_range sector_range max_weight log with
      | Returned (pf, solution) =>
          create_portfolios_loop schedule items' beta_range sector_range max_weight log
            (<[date := pf]> portfolios) (<[date := solution]> sols)
      | Raised _ =>
          create_portfolios_loop schedule items' beta_range sector_range max_weight log
            portfolios sols
      end
  end.

Definition create_portfolios (self : STRRunner) (beta_range sector_range : R * R)
    (max_weight : R) (log : bool) : outcome STRRunner :=
  match constituent_data self with
  | [] => Raised (ValueError "No constituent data found. Call `retrieve_index_constituents` first.")
  | _ =>
      try (portfolios, sols) ←
        create_portfolios_loop (schedule self) (constituent_data self)
          beta_range sector_range max_weight log
          (optimized_portfolios self) (solutions self);
      Returned {| schedule := schedule self;
                  constituent_data := constituent_data self;
                  returns := returns self;
                  optimized_portfolios := portfolios;
                  solutions := sols;
                  cumulative_strategy_returns := cumulative_strategy_returns self;
                  strategy_returns := strategy_returns self |}
  end.

Definition run_backtest (self : STRRunner) : outcome STRRunner :=
  if decide (optimized_portfolios self = ∅) then
    Raised (ValueError "No portfolios found. Call `create_portfolios` first.")
  else
    match schedule self with
    | None => Raised AttributeError
    | Some table =>
        try result ← backtest_strategy (optimized_portfolios self) table (returns self);
        Returned {| schedule := schedule self;
                    constituent_data := constituent_data self;
                    returns := returns self;
                    optimized_portfolios := optimized_portfolios self;
                    solutions := solutions self;
                    cumulative_strategy_returns :=
                      zip (sr_index result) (Cumulative_Returns result);
                    strategy_returns :=
                      zip (sr_index result) (Portfolio_Returns result) |}
    end.

(** [series.loc[start:].add(1).cumprod().iloc[-1]]. *)
Definition final_cumulative (series : list (Z * R)) (start : Z) : outcome R :=
  try s ← get_slice_bound (series.*1) start side_left;
  match last (cumprod (map (λ p, (1 + p.2)%R) (drop s series))) with
  | Some v => Returned v
  | None => Raised IndexError
  end.

(** [itertools.product] of the four candidate lists. *)
Definition param_combinations (beta_limits sector_limits max_weights : list R)
    (log : list bool) : list (R * R * R * bool) :=
  b ← beta_limits; s ← sector_limits; m ← max_weights; l ← log; [(b, s, m, l)].

(** One combination of the sweep: portfolios, backtest, summary row. *)
Definition grid_step (self : STRRunner) (start : Z) (c : R * R * R * bool)
    : outcome (STRRunner * GridResult) :=
  let '(b, s, m, l) := c in
  try self1 ← create_portfolios self ((- b)%R, b) ((- s)%R, s) m l;
  try self2 ← run_backtest self1;
  try final ← final_cumulative (strategy_returns self2) start;
  Returned (self2, {| beta_limit := b; sector_limit := s; grid_max_weight := m;
                      grid_log := l; final_cumulative_return := final |}).

Fixpoint grid_search_loop (combos : list (R * R * R * bool)) (start : Z)
    (self : STRRunner) (results : list GridResult)
    : outcome (STRRunner * list GridResult) :=
  match combos with
  | [] => Returned (self, results)
  | c :: combos' =>
      try (self', row) ← grid_step self start c;
      grid_search_loop combos' start self' (results ++ [row])
  end.

Definition grid_search (self : STRRunner) (beta_limits sector_limits max_weights : list R)
    (log : list bool) (start : Z) : outcome (STRRunner * list GridResult) :=
  grid_search_loop (param_combinations beta_limits sector_limits max_weights log)
    start self [].

End runner.

(** ** Reference notions used by the statements *)

Local Open Scope R_scope.

(** The holding window of a schedule entry, both ends included. *)
Definition in_window (row : ScheduleRow) (d : Z) : bool :=
  bool_decide (Third_to_Last_Friday row ≤ d ≤ Second_to_Last_Friday row)%Z.

(** The portfolios of the schedule entries that have one and whose window
    holds day [d], in schedule order. *)
Definition holdings_at (optimized_portfolios : gmap Z (list PortfolioRow))
    (schedule : list ScheduleRow) (d : Z) : list (list PortfolioRow) :=
  omap (λ row, if in_window row d
               then optimized_portfolios !! Third_to_Last_Friday row
               else None) schedule.

(** Dot product of a weight vector with the returns of one day: each asset's
    weight times its return, an asset without a return that day adding
    nothing. *)
Definition dot_product (w : list (string * R)) (cols : list string)
    (cells : list (option R)) : R :=
  Rsum (map (λ aw, aw.2 * default 0 (cell_at cols cells aw.1)) w).

(** The return a day receives from the schedule: the dot product for the
    last entry, in schedule order, that has a portfolio and whose window
    holds the day, and nothing when there is none. *)
Definition scheduled_return (optimized_portfolios : gmap Z (list PortfolioRow))
    (schedule : list ScheduleRow) (cols : list string) (d : Z)
    (cells : list (option R)) : R :=
  match last (holdings_at optimized_portfolios schedule d) with
  | Some pf => dot_product (weight_series pf) cols cells
  | None => 0
  end.

(** The reading under which every entry with a portfolio sees its own dot
    product on every day of its window. *)
Definition every_window_keeps_its_return
    (optimized_portfolios : gmap Z (list PortfolioRow))
    (schedule : list ScheduleRow) (df : DataFrame) (out : StrategyReturns) : Prop :=
  ∀ row pf i d cells,
    row ∈ schedule →
    optimized_portfolios !! Third_to_Last_Friday row = Some pf →
    rows df !! i = Some (d, cells) →
    in_window row d = true →
    Portfolio_Returns out !! i = Some (dot_product (weight_series pf) (columns df) cells).

(** The date range of an index spans the window from [a] to [b]. *)
Definition covers (idx : list Z) (a b : Z) : Prop :=
  ∃ lo hi, lo ∈ idx ∧ hi ∈ idx ∧ (lo ≤ a)%Z ∧ (b ≤ hi)%Z.

(** What [(frame * w).sum(axis=1)] leaves in the row of one day. *)
Definition weighted_row_sum (w : list (string * R)) (cols : list string)
    (cells : list (option R)) : R :=
  nansum (map (λ c, nan_mul (cell_at cols cells c) (series_get c w))
              (union_labels cols (w.*1))).

(** The arithmetic mean and the two standard deviations of a sample. *)
Definition mean (xs : list R) : R := Rsum xs / INR (length xs).

Definition sum_sq_dev (xs : list R) : R :=
  Rsum (map (λ x, (x - mean xs) * (x - mean xs)) xs).

Definition population_std (xs : list R) : R := sqrt (sum_sq_dev xs / INR (length xs)).

Definition sample_std (xs : list R) : R := sqrt (sum_sq_dev xs / (INR (length xs) - 1)).

(** A column standardised with a given standard deviation: each value that
    is not NaN minus the mean of those values, divided by their deviation. *)
Definition standardize (sd : list R → R) (col : list (option R)) : list (option R) :=
  map (λ s, match s with
            | Some x => Some ((x - mean (valid col)) / sd (valid col))
            | None => None
            end) col.

(** Sum of the strictly positive, and of the strictly negative, entries. *)
Definition positive_sum (ws : list R) : R :=
  Rsum (map (λ w, if Rlt_dec 0 w then w else 0) ws).

Definition negative_sum (ws : list R) : R :=
  Rsum (map (λ w, if Rlt_dec w 0 then w else 0) ws).

Definition net_beta_exposure (pf : list PortfolioRow) : R :=
  Rsum (map (λ r, BETA_RAW_OVERRIDABLE (asset r) * Optimized_Weight r) pf).

Definition net_sector_exposure (pf : list PortfolioRow) (sector : string) : R :=
  Rsum (map Optimized_Weight
            (filter (λ r, GICS_SECTOR_NAME (asset r) = sector) pf)).



Local Close Scope R_scope.


(** ** Sample inputs *)

Module samples.

Local Open Scope R_scope.

Definition holding (name : string) (w : R) : PortfolioRow :=
  {| asset := {| ticker := name;
                 CUST_TRR_RETURN_HOLDING_PER := 0;
                 BETA_RAW_OVERRIDABLE := 0;
                 GICS_SECTOR_NAME := "Energy";
                 TURNOVER := 1 |};
     Optimized_Weight := w |}.

Definition quarter (entry exit : Z) : ScheduleRow :=
  {| Year := 2023; Quarter := "Q1";
     Second_to_Last_Friday := exit;
     Third_to_Last_Friday := entry;
     Third_to_Last_Thursday := entry - 1;
     Second_to_last_friday_previous := entry - 80 |}.

(** Three trading days, one asset returning 1 each day. *)
Definition three_days : DataFrame :=
  {| columns := ["A"];
     rows := [ (10%Z, [Some 1]); (11%Z, [Some 1]); (12%Z, [Some 1]) ] |}.

(** Two entries whose windows share day 11, with different weights. *)
Definition overlapping_schedule : list ScheduleRow := [ quarter 10 11; quarter 11 12 ].

Definition two_portfolios : gmap Z (list PortfolioRow) :=
  <[ 10%Z := [ holding "A" 1 ] ]> (<[ 11%Z := [ holding "A" 2 ] ]> ∅).

(** One entry whose window, days 11 to 20, runs past the last row. *)
Definition long_schedule : list ScheduleRow := [ quarter 11 20 ].

Definition one_portfolio : gmap Z (list PortfolioRow) :=
  <[ 11%Z := [ holding "A" 2 ] ]> ∅.

Definition raw (name : string) (ret beta : R) (sector : string) (turnover : R)
    : RawAsset :=
  {| raw_ticker := name;
     raw_CUST_TRR_RETURN_HOLDING_PER := Some ret;
     raw_BETA_RAW_OVERRIDABLE := Some beta;
     raw_GICS_SECTOR_NAME := Some sector;
     raw_TURNOVER := Some turnover |}.

(** Two assets of one sector with the same beta. *)
Definition pair_universe : list RawAsset :=
  [ raw "A" 0 1 "Energy" 1; raw "B" 2 1 "Energy" 1 ].

(** A universe of one asset, and the pair universe with a third asset whose
    turnover is 0. *)
Definition lone_asset : list RawAsset := [ raw "A" 0 1 "Energy" 1 ].

Definition untraded_third : list RawAsset :=
  [ raw "A" 0 1 "Energy" 1; raw "B" 2 1 "Energy" 1; raw "C" 1 1 "Energy" 0 ].

(** The whole long book in the first asset, the whole short book in the
    second. *)
Definition long_first_short_second : Solution :=
  {| status := "optimal";
     value := -1;
     longs_value := λ i, match i with 0%nat => 1 | _ => 0 end;
     shorts_value := λ i, match i with 1%nat => 1 | _ => 0 end;
     z_value := λ i, match i with 0%nat => 1 | _ => 0 end |}.

Definition no_solution : Solution :=
  {| status := "infeasible";
     value := 0;
     longs_value := λ _, 0;
     shorts_value := λ _, 0;
     z_value := λ _, 0 |}.

(** A solver that answers every problem the same way. *)
Definition answering (s : Solution) : Problem → Solution := λ _, s.

(** A runner in the middle of a sweep: the portfolio of day 11 was computed
    under an earlier combination. *)
Definition mid_sweep : STRRunner :=
  {| schedule := Some long_schedule;
     constituent_data := [ (10%Z, pair_universe) ];
     returns := three_days;
     optimized_portfolios := one_portfolio;
     solutions := <[ 11%Z := -1 ]> ∅;
     cumulative_strategy_returns := [];
     strategy_returns := [] |}.

(** The table [optimize_portfolio] returns for the pair universe with that
    assignment. *)
Definition long_short_pair : list PortfolioRow :=
  [ {| asset := {| ticker := "A"; CUST_TRR_RETURN_HOLDING_PER := 0;
                   BETA_RAW_OVERRIDABLE := 1; GICS_SECTOR_NAME := "Energy";
                   TURNOVER := 1 |};
       Optimized_Weight := 1 - 0 |};
    {| asset := {| ticker := "B"; CUST_TRR_RETURN_HOLDING_PER := 2;
                   BETA_RAW_OVERRIDABLE := 1; GICS_SECTOR_NAME := "Energy";
                   TURNOVER := 1 |};
       Optimized_Weight := 0 - 1 |} ].

(** The same runner before any portfolio was computed. *)
Definition fresh : STRRunner :=
  {| schedule := Some long_schedule;
     constituent_data := [ (10%Z, pair_universe) ];
     returns := three_days;
     optimized_portfolios := ∅;
     solutions := ∅;
     cumulative_strategy_returns := [];
     strategy_returns := [] |}.

(** A solver for the pair universe: one asset long and one short at full
    weight when the cap allows it, no solution otherwise. *)
Definition cap_sensitive (p : Problem) : Solution :=
  match constraints p with
  | _ :: _ :: c_longs_le_z max_weight :: _ =>
      if Rle_dec 1 max_weight then long_first_short_second else no_solution
  | _ => no_solution
  end.

Local Close Scope R_scope.

End samples.

From stdpp Require Import sorting.

(** ** get_fridays.py *)

(** [pd.Timestamp("YYYY-MM-DD")] in the proleptic Gregorian calendar, as the
    number of the day counted from 1970-01-01.  A nanosecond timestamp exists
    for the years 1678 to 2261, which is where the schedule is defined. *)
Definition is_leap (y : Z) : bool :=
  ((y mod 4 =? 0) && negb (y mod 100 =? 0) || (y mod 400 =? 0))%Z.

Definition days_before_year (y : Z) : Z :=
  (365 * (y - 1970) + ((y - 1) / 4 - (y - 1) / 100 + (y - 1) / 400) - 477)%Z.

Definition days_before_month (leap : bool) (m : Z) : Z :=
  let l := (if leap then 1 else 0)%Z in
  match m with
  | 1 => 0
  | 2 => 31
  | 3 => 59 + l
  | 4 => 90 + l
  | 5 => 120 + l
  | 6 => 151 + l
  | 7 => 181 + l
  | 8 => 212 + l
  | 9 => 243 + l
  | 10 => 273 + l
  | 11 => 304 + l
  | _ => 334 + l
  end%Z.

Definition Timestamp (y m d : Z) : Z :=
  (days_before_year y + days_before_month (is_leap y) m + (d - 1))%Z.

(** [Timestamp.weekday()]: Monday is 0 and Sunday 6; day 0 was a Thursday. *)
Definition weekday (t : Z) : Z := ((t + 3) mod 7)%Z.

(** The years a nanosecond [pd.Timestamp] can hold for every day the
    schedule touches. *)
Definition schedule_years (start_year end_year : Z) : Prop :=
  (1678 ≤ start_year ∧ end_year ≤ 2261)%Z.

(** The dictionary [quarters] of one year, in insertion order. *)
Definition quarters (year : Z) : list (string * Z) :=
  [ ("Q1", Timestamp year 3 31);
    ("Q2", Timestamp year 6 30);
    ("Q3", Timestamp year 9 30);
    ("Q4", Timestamp year 12 31) ].

(** The row appended for one quarter. *)
Definition quarter_row (year : Z) (quarter : string) (end_date : Z) : ScheduleRow :=
  let last_friday := (end_date - (weekday end_date - 4) mod 7)%Z in
  let second_to_last_friday := (last_friday - 7)%Z in
  let third_to_last_friday := (last_friday - 14)%Z in
  let third_to_last_thursday := (third_to_last_friday - 1)%Z in
  let prev_end_date :=
    if decide (quarter = "Q1") then Timestamp (year - 1) 12 31
    else if decide (quarter = "Q2") then Timestamp year 3 31
    else if decide (quarter = "Q3") then Timestamp year 6 30
    else Timestamp year 9 30 in
  let prev_last_friday := (prev_end_date - (weekday prev_end_date - 4) mod 7)%Z in
  let second_to_last_friday_previous := (prev_last_friday - 7)%Z in
  {| Year := year;
     Quarter := quarter;
     Second_to_Last_Friday := second_to_last_friday;
     Third_to_Last_Friday := third_to_last_friday;
     Third_to_Last_Thursday := third_to_last_thursday;
     Second_to_last_friday_previous := second_to_last_friday_previous |}.

Definition get_last_fridays_for_years (start_year end_year : Z) : list ScheduleRow :=
  flat_map (λ year, map (λ q, quarter_row year q.1 q.2) (quarters year))
           (seqZ start_year (end_year + 1 - start_year)).

(** [STRRunner.generate_schedule], with the two years the runner was built
    with. *)
Definition generate_schedule (start_year end_year : Z) (self : STRRunner) : STRRunner :=
  {| schedule := Some (get_last_fridays_for_years start_year end_year);
     constituent_data := constituent_data self;
     returns := returns self;
     optimized_portfolios := optimized_portfolios self;
     solutions := solutions self;
     cumulative_strategy_returns := cumulative_strategy_returns self;
     strategy_returns := strategy_returns self |}.

(** The window of [r1] is over before the window of [r2] opens. *)
Definition precedes (r1 r2 : ScheduleRow) : Prop :=
  (Second_to_Last_Friday r1 < Third_to_Last_Friday r2)%Z.

(** The invariant a schedule is meant to have: an entry's window closes
    before the window of any later entry opens. *)
Definition non_overlapping (schedule : list ScheduleRow) : Prop :=
  StronglySorted precedes schedule.

(** ** Reference notions for the optimizer *)

(** A row of the universe with all four required fields. *)
Definition complete (r : RawAsset) : bool :=
  bool_decide (is_Some (raw_CUST_TRR_RETURN_HOLDING_PER r) ∧
               is_Some (raw_BETA_RAW_OVERRIDABLE r) ∧
               is_Some (raw_GICS_SECTOR_NAME r) ∧
               is_Some (raw_TURNOVER r)).

(** ** More sample inputs *)

Module samples2.

Local Open Scope R_scope.

(** The trading days of 17 and 24 March 2023, one asset returning 1. *)
Definition march_2023 : DataFrame :=
  {| columns := ["A"];
     rows := [ (Timestamp 2023 3 17, [Some 1]); (Timestamp 2023 3 24, [Some 1]) ] |}.

(** A runner holding a portfolio for the first quarter of 2023. *)
Definition march_runner : STRRunner :=
  {| schedule := None;
     constituent_data := [];
     returns := march_2023;
     optimized_portfolios := <[ Timestamp 2023 3 17 := [ samples.holding "A" 2 ] ]> ∅;
     solutions := ∅;
     cumulative_strategy_returns := [];
     strategy_returns := [] |}.

Local Close Scope R_scope.

End samples2.

(** The parameters a row of the sweep's result table records. *)
Definition grid_params (r : GridResult) : R * R * R * bool :=
  (beta_limit r, sector_limit r, grid_max_weight r, grid_log r).
(** ** Label slices of an ascending index *)

Lemma monotonic_increasing_cons x idx :
  is_monotonic_increasing (x :: idx) = true →
  is_monotonic_increasing idx = true ∧ ∀ y, y ∈ idx → (x ≤ y)%Z.
Proof.
  revert x. induction idx as [|y idx IH]; intros x H.
  - split; [done|]. intros y Hy. by apply elem_of_nil in Hy.
  - simpl in H. apply andb_prop in H as [Hxy Hm]. apply Z.leb_le in Hxy.
    split; [exact Hm|]. intros y' Hy'. apply elem_of_cons in Hy' as [->|Hy']; [done|].
    destruct (IH y Hm) as [_ Hall]. specialize (Hall y' Hy'). lia.
Qed.

Lemma searchsorted_le_length idx v side : searchsorted idx v side ≤ length idx.
Proof.
  induction idx as [|x idx IH]; simpl; [lia|].
  destruct side; case_match; lia.
Qed.

Lemma searchsorted_left_spec idx v i x :
  is_monotonic_increasing idx = true → idx !! i = Some x →
  i < searchsorted idx v side_left ↔ (x < v)%Z.
Proof.
  revert i. induction idx as [|x0 idx IH]; intros i Hm Hi; [done|].
  apply monotonic_increasing_cons in Hm as [Hm Hall]. simpl.
  destruct (Z.ltb_spec x0 v) as [Hlt|Hge].
  - destruct i as [|i]; simpl in Hi.
    + inversion Hi; subst. split; [done|lia].
    + rewrite <- (IH i Hm Hi). lia.
  - assert (x0 ≤ x)%Z.
    { destruct i as [|i]; simpl in Hi; [inversion Hi; lia|].
      apply Hall. by eapply list_elem_of_lookup_2. }
    split; lia.
Qed.

Lemma searchsorted_right_spec idx v i x :
  is_monotonic_increasing idx = true → idx !! i = Some x →
  i < searchsorted idx v side_right ↔ (x ≤ v)%Z.
Proof.
  revert i. induction idx as [|x0 idx IH]; intros i Hm Hi; [done|].
  apply monotonic_increasing_cons in Hm as [Hm Hall]. simpl.
  destruct (Z.leb_spec x0 v) as [Hle|Hgt].
  - destruct i as [|i]; simpl in Hi.
    + inversion Hi; subst. split; [done|lia].
    + rewrite <- (IH i Hm Hi). lia.
  - assert (x0 ≤ x)%Z.
    { destruct i as [|i]; simpl in Hi; [inversion Hi; lia|].
      apply Hall. by eapply list_elem_of_lookup_2. }
    split; lia.
Qed.

Lemma positions_from_absent k idx v :
  (∀ y, y ∈ idx → y ≠ v) → positions_from k idx v = [].
Proof.
  revert k. induction idx as [|x idx IH]; intros k H; [done|]. simpl.
  destruct (Z.eqb_spec x v) as [->|_].
  - exfalso. apply (H v); [left|done].
  - apply IH. intros y Hy. apply H. by right.
Qed.

Lemma positions_from_monotonic k idx v :
  is_monotonic_increasing idx = true →
  positions_from k idx v =
    seq (k + searchsorted idx v side_left)
        (searchsorted idx v side_right - searchsorted idx v side_left).
Proof.
  revert k. induction idx as [|x idx IH]; intros k Hm; [done|].
  pose proof Hm as Hm0.
  apply monotonic_increasing_cons in Hm as [Hm Hall].
  cbn [positions_from searchsorted].
  destruct (Z.ltb_spec x v) as [Hlt|Hge].
  - destruct (Z.eqb_spec x v) as [?|_]; [lia|].
    destruct (Z.leb_spec x v) as [_|?]; [|lia].
    rewrite (IH (S k) Hm). f_equal; lia.
  - destruct (Z.leb_spec x v) as [Hle|Hgt].
    + assert (x = v) as -> by lia. rewrite Z.eqb_refl.
      assert (searchsorted idx v side_left = 0) as Hz.
      { destruct idx as [|y idx]; [done|]. simpl.
        destruct (Z.ltb_spec y v) as [?|_]; [|done].
        assert (v ≤ y)%Z by (apply Hall; left). lia. }
      rewrite (IH (S k) Hm), Hz. rewrite !Nat.add_0_r, !Nat.sub_0_r. done.
    + destruct (Z.eqb_spec x v) as [?|_]; [lia|]. simpl.
      apply positions_from_absent. intros y Hy ->.
      specialize (Hall v Hy). lia.
Qed.

Lemma searchsorted_left_le_right idx v :
  searchsorted idx v side_left ≤ searchsorted idx v side_right.
Proof.
  induction idx as [|x idx IH]; simpl; [lia|].
  destruct (Z.ltb_spec x v), (Z.leb_spec x v); lia.
Qed.

(** On an ascending index a slice bound is an insertion point, whether or
    not the label occurs, and no [KeyError] is raised. *)
Lemma get_slice_bound_monotonic idx v side :
  is_monotonic_increasing idx = true →
  get_slice_bound idx v side = Returned (searchsorted idx v side).
Proof.
  intros Hm. unfold get_slice_bound.
  rewrite (positions_from_monotonic 0 idx v Hm), Hm. simpl.
  pose proof (searchsorted_left_le_right idx v) as Hle.
  destruct (searchsorted idx v side_right - searchsorted idx v side_left) as [|m] eqn:E.
  - done.
  - simpl. rewrite length_seq, bool_decide_true by done.
    destruct side; f_equal; lia.
Qed.

Lemma slice_locs_monotonic idx a b :
  is_monotonic_increasing idx = true →
  slice_locs idx a b =
    Returned (searchsorted idx a side_left, searchsorted idx b side_right).
Proof.
  intros Hm. unfold slice_locs. by rewrite !get_slice_bound_monotonic.
Qed.

(** ** The backtest loop on an ascending date index *)

Lemma islice_lookup {A} (l : list A) s e i :
  s ≤ i < e → islice s e l !! (i - s) = l !! i.
Proof.
  intros H. unfold islice. rewrite lookup_take_lt by lia.
  rewrite lookup_drop. f_equal. lia.
Qed.

Lemma islice_length {A} (l : list A) s e :
  e ≤ length l → length (islice s e l) = e - s.
Proof. intros H. unfold islice. rewrite length_take, length_drop. lia. Qed.

(** One pass of the loop body: the days of the window receive the weighted
    sum of their row, the other days keep what they had. *)
Lemma window_write_lookup df a b w col i d cells :
  is_monotonic_increasing (index df) = true →
  length col = length (rows df) →
  rows df !! i = Some (d, cells) →
  list_inserts (searchsorted (index df) a side_left)
    (map (λ p : Z * R, Some p.2)
       (sum_axis1 (mul_series
          {| columns := columns df;
             rows := islice (searchsorted (index df) a side_left)
                            (searchsorted (index df) b side_right) (rows df) |} w)))
    col !! i
  = if bool_decide (a ≤ d ≤ b)%Z
    then Some (Some (weighted_row_sum w (columns df) cells))
    else col !! i.
Proof.
  intros Hm Hlen Hi.
  set (s := searchsorted (index df) a side_left).
  set (e := searchsorted (index df) b side_right).
  assert (index df !! i = Some d) as Hd.
  { unfold index. by rewrite list_lookup_fmap, Hi. }
  pose proof (searchsorted_left_spec _ a _ _ Hm Hd) as Hs.
  pose proof (searchsorted_right_spec _ b _ _ Hm Hd) as He.
  fold s in Hs. fold e in He.
  assert (e ≤ length (rows df)) as Hel.
  { subst e. etrans; [apply searchsorted_le_length|]. unfold index.
    by rewrite length_fmap. }
  assert (i < length (rows df)) as Hil by (by eapply lookup_lt_Some).
  unfold sum_axis1, mul_series. cbn [rows columns].
  rewrite !map_map. cbn [fst snd].
  match goal with |- list_inserts _ ?k _ !! _ = _ => set (vals := k) end.
  assert (length vals = e - s) as Hvl.
  { subst vals. by rewrite length_map, islice_length. }
  case_bool_decide as Hw.
  - rewrite list_lookup_inserts by lia.
    subst vals. rewrite list_lookup_fmap, islice_lookup by lia.
    by rewrite Hi.
  - destruct (decide (i < s)) as [Hlt|Hge].
    + by apply list_lookup_inserts_lt.
    + apply list_lookup_inserts_ge. lia.
Qed.

Lemma last_cons_or {A} (x : A) (l : list A) :
  last (x :: l) = match last l with Some y => Some y | None => Some x end.
Proof.
  destruct l as [|y l]; [done|]. simpl.
  destruct (last (y :: l)) eqn:E; [done|]. by apply last_None in E.
Qed.

Lemma backtest_loop_monotonic optimized_portfolios schedule df col :
  is_monotonic_increasing (index df) = true →
  length col = length (rows df) →
  ∃ col', backtest_loop optimized_portfolios schedule df col = Returned col' ∧
    length col' = length (rows df) ∧
    ∀ i d cells, rows df !! i = Some (d, cells) →
      col' !! i =
        match last (holdings_at optimized_portfolios schedule d) with
        | Some pf => Some (Some (weighted_row_sum (weight_series pf) (columns df) cells))
        | None => col !! i
        end.
Proof.
  intros Hm. revert col.
  induction schedule as [|row schedule IH]; intros col Hlen.
  - exists col. by repeat split.
  - cbn [backtest_loop holdings_at omap list_omap].
    destruct (optimized_portfolios !! Third_to_Last_Friday row) as [pf|] eqn:Hpf.
    + unfold loc_slice, loc_assign. rewrite (slice_locs_monotonic _ _ _ Hm).
      cbn [outcome_bind].
      match goal with |- context [backtest_loop _ _ _ ?c] => set (col1 := c) end.
      assert (length col1 = length (rows df)) as Hlen1.
      { subst col1. by rewrite length_inserts. }
      destruct (IH col1 Hlen1) as (col' & Hrun & Hl' & Hget).
      exists col'. split; [exact Hrun|]. split; [exact Hl'|].
      intros i d cells Hi. rewrite (Hget i d cells Hi).
      fold (holdings_at optimized_portfolios schedule d).
      unfold in_window. destruct (bool_decide _) eqn:Hw.
      * rewrite last_cons_or.
        destruct (last (holdings_at optimized_portfolios schedule d)); [done|].
        subst col1. rewrite (window_write_lookup df _ _ _ col i d cells Hm Hlen Hi).
        by rewrite Hw.
      * destruct (last (holdings_at optimized_portfolios schedule d)); [done|].
        subst col1. rewrite (window_write_lookup df _ _ _ col i d cells Hm Hlen Hi).
        by rewrite Hw.
    + destruct (IH col Hlen) as (col' & Hrun & Hl' & Hget).
      exists col'. split; [exact Hrun|]. split; [exact Hl'|].
      intros i d cells Hi. rewrite (Hget i d cells Hi).
      fold (holdings_at optimized_portfolios schedule d).
      by destruct (in_window row d).
Qed.

(** ** The weighted row sum is a dot product *)

Local Open Scope R_scope.

Lemma Rsum_app l k : Rsum (l ++ k) = Rsum l + Rsum k.
Proof. induction l as [|x l IH]; simpl; [lra|]. rewrite IH. lra. Qed.

Lemma Rsum_Permutation l k : l ≡ₚ k → Rsum l = Rsum k.
Proof. induction 1; simpl; lra. Qed.

Lemma Rsum_map_ext {A} (f g : A → R) l :
  (∀ x, x ∈ l → f x = g x) → Rsum (map f l) = Rsum (map g l).
Proof.
  induction l as [|x l IH]; intros H; [done|]. simpl.
  rewrite (H x) by left. rewrite IH; [done|]. intros y Hy. apply H. by right.
Qed.

Lemma Rsum_map_zero {A} (f : A → R) l :
  (∀ x, x ∈ l → f x = 0) → Rsum (map f l) = 0.
Proof.
  intros H. rewrite (Rsum_map_ext f (λ _, 0) l H). clear H.
  induction l as [|x l IH]; simpl; [done|]. rewrite IH. lra.
Qed.

Lemma Rsum_filter_support {A} (f : A → R) (P : A → Prop) `{!∀ x, Decision (P x)} l :
  (∀ x, x ∈ l → ¬ P x → f x = 0) → Rsum (map f l) = Rsum (map f (filter P l)).
Proof.
  induction l as [|x l IH]; intros Hz; [done|].
  rewrite filter_cons. simpl.
  assert (Rsum (map f l) = Rsum (map f (filter P l))) as E.
  { apply IH. intros y Hy. apply Hz. by right. }
  destruct (decide (P x)) as [_|Hn]; simpl; rewrite E; [done|].
  rewrite (Hz x); [lra|by left|done].
Qed.

(** Two duplicate-free label lists carry the same sum of a function that
    vanishes outside each of them. *)
Lemma Rsum_common_support (f : string → R) (l k : list string) :
  NoDup l → NoDup k →
  (∀ c, c ∉ l → f c = 0) → (∀ c, c ∉ k → f c = 0) →
  Rsum (map f l) = Rsum (map f k).
Proof.
  intros Hl Hk Hfl Hfk.
  rewrite (Rsum_filter_support f (λ c, c ∈ k) l) by (intros; by apply Hfk).
  rewrite (Rsum_filter_support f (λ c, c ∈ l) k) by (intros; by apply Hfl).
  apply Rsum_Permutation, Permutation_map, NoDup_Permutation.
  - by apply NoDup_filter.
  - by apply NoDup_filter.
  - intros c. rewrite !list_elem_of_filter. tauto.
Qed.

Lemma series_get_None {V} c (s : list (string * V)) :
  c ∉ s.*1 → series_get c s = None.
Proof.
  induction s as [|[l v] s IH]; intros H; [done|]. simpl.
  destruct (decide (l = c)) as [->|_].
  - exfalso. apply H. left.
  - apply IH. intros Hin. apply H. by right.
Qed.

Lemma series_get_NoDup {V} a (v : V) (s : list (string * V)) :
  NoDup (s.*1) → (a, v) ∈ s → series_get a s = Some v.
Proof.
  induction s as [|[l u] s IH]; intros Hnd Hin; [by apply elem_of_nil in Hin|].
  simpl in *. apply NoDup_cons in Hnd as [Hl Hnd].
  apply elem_of_cons in Hin as [E|Hin].
  - inversion E; subst. by rewrite decide_True.
  - destruct (decide (l = a)) as [->|_]; [|by apply IH].
    exfalso. apply Hl. apply list_elem_of_fmap. by exists (a, v).
Qed.

Lemma cell_at_absent cols cells c : c ∉ cols → cell_at cols cells c = None.
Proof.
  intros H. unfold cell_at. rewrite series_get_None; [done|].
  intros Hin. apply H. apply list_elem_of_fmap in Hin as ([c' x] & -> & Hin).
  apply elem_of_zip_l in Hin. done.
Qed.

Lemma nansum_Rsum (cells : list (option R)) :
  nansum cells = Rsum (map (default 0) cells).
Proof. induction cells as [|[v|] cells IH]; simpl; rewrite ?IH; lra. Qed.

Lemma weighted_row_sum_dot_product w cols cells :
  NoDup cols → NoDup (w.*1) →
  weighted_row_sum w cols cells = dot_product w cols cells.
Proof.
  intros Hc Hw. unfold weighted_row_sum, dot_product, union_labels.
  set (f := λ c : string, default 0 (nan_mul (cell_at cols cells c) (series_get c w))).
  rewrite nansum_Rsum, map_map. fold f. rewrite map_app, Rsum_app.
  rewrite (Rsum_map_zero f (filter _ _)).
  2:{ intros c Hin. apply list_elem_of_filter in Hin as [Hn _].
      unfold f. by rewrite cell_at_absent. }
  rewrite Rplus_0_r.
  rewrite (Rsum_common_support f cols (w.*1) Hc Hw).
  - rewrite map_map. apply Rsum_map_ext. intros [a wa] Hin. unfold f. simpl.
    rewrite (series_get_NoDup a wa w Hw Hin).
    destruct (cell_at cols cells a); simpl; lra.
  - intros c Hn. unfold f. by rewrite cell_at_absent.
  - intros c Hn. unfold f. rewrite (series_get_None c w Hn).
    by destruct (cell_at cols cells c).
Qed.

Local Close Scope R_scope.

(** ** The backtester *)

Lemma holdings_at_elem optimized_portfolios schedule d pf :
  pf ∈ holdings_at optimized_portfolios schedule d →
  ∃ row, row ∈ schedule ∧ in_window row d = true ∧
         optimized_portfolios !! Third_to_Last_Friday row = Some pf.
Proof.
  unfold holdings_at. rewrite list_elem_of_omap. intros (row & Hin & H).
  exists row. destruct (in_window row d); [done|discriminate].
Qed.

Lemma holdings_at_app optimized_portfolios l k d :
  holdings_at optimized_portfolios (l ++ k) d =
  holdings_at optimized_portfolios l d ++ holdings_at optimized_portfolios k d.
Proof. apply omap_app. Qed.

Lemma backtest_loop_length optimized_portfolios schedule df col col' :
  backtest_loop optimized_portfolios schedule df col = Returned col' →
  length col' = length col.
Proof.
  revert col. induction schedule as [|row schedule IH]; intros col H.
  - by inversion H.
  - simpl in H. destruct (optimized_portfolios !! _); [|by apply IH].
    destruct (loc_slice _ _ _); [|done]. simpl in H. unfold loc_assign in H.
    destruct (slice_locs _ _ _) as [[s e]|]; [|done]. simpl in H.
    apply IH in H. by rewrite length_inserts in H.
Qed.

Lemma fillna_lookup v col i :
  fillna v col !! i = default v <$> col !! i.
Proof. unfold fillna. apply list_lookup_fmap. Qed.

(** The daily returns of a run over an ascending date index. *)
Lemma backtest_strategy_monotonic optimized_portfolios schedule df :
  is_monotonic_increasing (index df) = true →
  ∃ out, backtest_strategy optimized_portfolios schedule df = Returned out ∧
    sr_index out = index df ∧
    length (Portfolio_Returns out) = length (rows df) ∧
    ∀ i d cells, rows df !! i = Some (d, cells) →
      Portfolio_Returns out !! i =
        Some match last (holdings_at optimized_portfolios schedule d) with
             | Some pf => weighted_row_sum (weight_series pf) (columns df) cells
             | None => 0%R
             end.
Proof.
  intros Hm. unfold backtest_strategy.
  set (col0 := map (λ _, Some 0%R) (index df)).
  assert (length col0 = length (rows df)) as Hlen.
  { subst col0. unfold index. by rewrite length_map, length_fmap. }
  destruct (backtest_loop_monotonic optimized_portfolios schedule df col0 Hm Hlen)
    as (col & Hrun & Hl & Hget).
  rewrite Hrun. cbn [outcome_bind]. eexists. split; [reflexivity|].
  cbn [sr_index Portfolio_Returns]. split; [done|]. split.
  { unfold fillna. by rewrite length_map. }
  intros i d cells Hi. rewrite fillna_lookup, (Hget i d cells Hi).
  destruct (last _); [done|].
  subst col0. unfold index. rewrite list_lookup_fmap, list_lookup_fmap, Hi. done.
Qed.

(** C4 (as amended).  Over a chronologically ordered return table with
    distinct column labels, and portfolios with distinct tickers, the output
    series is indexed like the table and on every day holds the dot product
    of that day's returns with the weights of the last schedule entry, in
    schedule order, that has a weight vector and whose inclusive window
    contains the day; entries without a weight vector are skipped, and a day
    that no such window contains has return exactly 0. *)
Theorem backtest_returns_of_last_window optimized_portfolios schedule df out :
  is_monotonic_increasing (index df) = true →
  NoDup (columns df) →
  (∀ d pf, optimized_portfolios !! d = Some pf → NoDup (weight_series pf).*1) →
  backtest_strategy optimized_portfolios schedule df = Returned out →
  sr_index out = index df ∧
  length (Portfolio_Returns out) = length (rows df) ∧
  ∀ i d cells, rows df !! i = Some (d, cells) →
    Portfolio_Returns out !! i =
      Some (scheduled_return optimized_portfolios schedule (columns df) d cells).
Proof.
  intros Hm Hcols Hpf Hrun.
  destruct (backtest_strategy_monotonic optimized_portfolios schedule df Hm)
    as (out' & Hrun' & Hidx & Hlen & Hget).
  rewrite Hrun in Hrun'. inversion Hrun'; subst out'.
  split; [done|]. split; [done|].
  intros i d cells Hi. rewrite (Hget i d cells Hi). unfold scheduled_return.
  destruct (last _) as [pf|] eqn:Hlast; [|done].
  f_equal. apply weighted_row_sum_dot_product; [done|].
  apply last_Some_elem_of, holdings_at_elem in Hlast as (row & _ & _ & Hrow).
  by eapply Hpf.
Qed.

Lemma backtest_returns_of_last_window_witness :
  ∃ out,
    backtest_strategy samples.two_portfolios samples.overlapping_schedule
      samples.three_days = Returned out ∧
    sr_index out = index samples.three_days ∧
    length (Portfolio_Returns out) = length (rows samples.three_days) ∧
    ∀ i d cells, rows samples.three_days !! i = Some (d, cells) →
      Portfolio_Returns out !! i =
        Some (scheduled_return samples.two_portfolios samples.overlapping_schedule
                (columns samples.three_days) d cells).
Proof.
  eexists. split; [vm_compute; reflexivity|].
  apply (backtest_returns_of_last_window samples.two_portfolios
           samples.overlapping_schedule samples.three_days).
  - reflexivity.
  - apply NoDup_singleton.
  - intros d pf H. unfold samples.two_portfolios in H.
    apply lookup_insert_Some in H as [[_ <-]|[_ H]]; [apply NoDup_singleton|].
    apply lookup_insert_Some in H as [[_ <-]|[_ H]]; [apply NoDup_singleton|].
    by rewrite lookup_empty in H.
  - vm_compute; reflexivity.
Defined.

(** C4 (as stated) fails when two windows overlap: on day 11 the first
    entry's own dot product is 1 while the series holds 2. *)
Lemma every_window_keeps_its_return_counterexample :
  ∃ out,
    backtest_strategy samples.two_portfolios samples.overlapping_schedule
      samples.three_days = Returned out ∧
    ¬ every_window_keeps_its_return samples.two_portfolios
        samples.overlapping_schedule samples.three_days out.
Proof.
  eexists. split; [vm_compute; reflexivity|].
  intros H.
  specialize (H (samples.quarter 10 11) [samples.holding "A" 1] 1 11%Z [Some 1%R]).
  assert (samples.quarter 10 11 ∈ samples.overlapping_schedule) as Hin by left.
  specialize (H Hin eq_refl eq_refl eq_refl).
  vm_compute in H. inversion H as [E]. lra.
Qed.

Lemma cumprod_from_lookup acc l t :
  cumprod_from acc l !! t =
    (λ x, (match t with
           | 0 => acc
           | S t' => default 1%R (cumprod_from acc l !! t')
           end * x)%R) <$> l !! t.
Proof.
  revert acc t. induction l as [|x l IH]; intros acc t; [by destruct t|].
  destruct t as [|t]; [done|]. cbn [cumprod_from lookup list_lookup].
  rewrite IH. destruct t as [|t]; [done|].
  cbn [lookup list_lookup]. done.
Qed.

Lemma cumprod_from_length acc l : length (cumprod_from acc l) = length l.
Proof. revert acc. induction l as [|x l IH]; intros acc; [done|]. simpl. by rewrite IH. Qed.

Lemma cumprod_from_one l : cumprod l = cumprod_from 1%R l.
Proof. destruct l as [|x l]; [done|]. simpl. by rewrite Rmult_1_l. Qed.

(** C5.  In every output the cumulative series has one value per date of the
    index, and the value at position [t] is the previous cumulative value,
    1 before the first date, times one plus the portfolio return at [t]. *)
Theorem cumulative_return_recurrence optimized_portfolios schedule df out t :
  backtest_strategy optimized_portfolios schedule df = Returned out →
  t < length (sr_index out) →
  ∃ r c, Portfolio_Returns out !! t = Some r ∧
         Cumulative_Returns out !! t = Some c ∧
         c = (match t with
              | 0 => 1
              | S t' => default 1 (Cumulative_Returns out !! t')
              end * (1 + r))%R.
Proof.
  unfold backtest_strategy. intros Hrun Ht.
  destruct (backtest_loop _ _ _ _) as [col|] eqn:Hloop; [|done].
  apply backtest_loop_length in Hloop. rewrite length_map in Hloop.
  inversion Hrun; subst out; clear Hrun. cbn [sr_index] in Ht.
  cbn [Portfolio_Returns Cumulative_Returns].
  destruct (lookup_lt_is_Some_2 (fillna 0 col) t) as [r Hr].
  { unfold fillna. rewrite length_map. lia. }
  exists r. eexists. split; [exact Hr|].
  rewrite cumprod_from_one, cumprod_from_lookup, list_lookup_fmap, Hr.
  split; reflexivity.
Qed.

Lemma cumulative_return_recurrence_witness :
  ∃ out,
    backtest_strategy samples.two_portfolios samples.overlapping_schedule
      samples.three_days = Returned out ∧
    ∃ r c, Portfolio_Returns out !! 2 = Some r ∧
           Cumulative_Returns out !! 2 = Some c ∧
           c = (default 1 (Cumulative_Returns out !! 1%nat) * (1 + r))%R.
Proof.
  eexists. split; [vm_compute; reflexivity|].
  apply (cumulative_return_recurrence samples.two_portfolios
           samples.overlapping_schedule samples.three_days _ 2).
  - vm_compute; reflexivity.
  - vm_compute; lia.
Defined.

(** The return written by the last entry that holds a day. *)
Lemma backtest_last_entry_return optimized_portfolios before entry after df out pf
    i d cells :
  is_monotonic_increasing (index df) = true →
  NoDup (columns df) →
  NoDup (weight_series pf).*1 →
  backtest_strategy optimized_portfolios (before ++ entry :: after) df = Returned out →
  optimized_portfolios !! Third_to_Last_Friday entry = Some pf →
  rows df !! i = Some (d, cells) →
  in_window entry d = true →
  holdings_at optimized_portfolios after d = [] →
  Portfolio_Returns out !! i = Some (dot_product (weight_series pf) (columns df) cells).
Proof.
  intros Hm Hcols Hpf Hrun Hentry Hi Hw Hafter.
  destruct (backtest_strategy_monotonic optimized_portfolios
              (before ++ entry :: after) df Hm)
    as (out' & Hrun' & _ & _ & Hget).
  rewrite Hrun in Hrun'. inversion Hrun'; subst out'.
  rewrite (Hget i d cells Hi).
  change (entry :: after) with ([entry] ++ after).
  rewrite !holdings_at_app, Hafter, app_nil_r.
  cbn [holdings_at omap list_omap]. rewrite Hw, Hentry. cbn [option_bind].
  rewrite last_snoc. f_equal. by apply weighted_row_sum_dot_product.
Qed.

(** C8.  When two schedule entries with weight vectors both hold a day, the
    day receives the dot product of the entry processed later, provided no
    entry after it holds the day as well: the later write replaces the
    earlier one. *)
Theorem overlap_later_entry_wins optimized_portfolios before earlier between later
    after df out pf1 pf2 i d cells :
  is_monotonic_increasing (index df) = true →
  NoDup (columns df) →
  NoDup (weight_series pf2).*1 →
  backtest_strategy optimized_portfolios
    (before ++ earlier :: between ++ later :: after) df = Returned out →
  optimized_portfolios !! Third_to_Last_Friday earlier = Some pf1 →
  optimized_portfolios !! Third_to_Last_Friday later = Some pf2 →
  rows df !! i = Some (d, cells) →
  in_window earlier d = true →
  in_window later d = true →
  holdings_at optimized_portfolios after d = [] →
  Portfolio_Returns out !! i = Some (dot_product (weight_series pf2) (columns df) cells).
Proof.
  intros Hm Hcols Hpf2 Hrun _ Hlater Hi _ Hw Hafter.
  apply (backtest_last_entry_return optimized_portfolios
           (before ++ earlier :: between) later after df out pf2 i d cells);
    try done.
  by rewrite <- app_assoc.
Qed.

Lemma overlap_later_entry_wins_witness :
  ∃ out,
    backtest_strategy samples.two_portfolios samples.overlapping_schedule
      samples.three_days = Returned out ∧
    Portfolio_Returns out !! 1 =
      Some (dot_product (weight_series [samples.holding "A" 2])
              (columns samples.three_days) [Some 1%R]).
Proof.
  eexists. split; [vm_compute; reflexivity|].
  apply (overlap_later_entry_wins samples.two_portfolios
           [] (samples.quarter 10 11) [] (samples.quarter 11 12) []
           samples.three_days _ [samples.holding "A" 1] [samples.holding "A" 2]
           1 11%Z [Some 1%R]).
  - reflexivity.
  - apply NoDup_singleton.
  - apply NoDup_singleton.
  - vm_compute; reflexivity.
  - reflexivity.
  - reflexivity.
  - reflexivity.
  - reflexivity.
  - reflexivity.
  - reflexivity.
Defined.

(** C9 (as amended).  Over a chronologically ordered return table with
    distinct column labels, and portfolios with distinct tickers, the
    backtester never fails, whatever part of a holding window the table
    covers: it returns a series over the table's own dates, on each of which
    the last entry holding that date has written the dot product of its
    weights with that day's returns, so a window that runs past the table is
    cut down to the dates the table has. *)
Theorem backtest_returns_on_ascending_index optimized_portfolios schedule df :
  is_monotonic_increasing (index df) = true →
  NoDup (columns df) →
  (∀ d pf, optimized_portfolios !! d = Some pf → NoDup (weight_series pf).*1) →
  ∃ out, backtest_strategy optimized_portfolios schedule df = Returned out ∧
         sr_index out = index df ∧
         length (Portfolio_Returns out) = length (index df) ∧
         length (Cumulative_Returns out) = length (index df) ∧
         ∀ i d cells, rows df !! i = Some (d, cells) →
           Portfolio_Returns out !! i =
             Some (scheduled_return optimized_portfolios schedule (columns df) d cells).
Proof.
  intros Hm Hcols Hpf.
  destruct (backtest_strategy_monotonic optimized_portfolios schedule df Hm)
    as (out & Hrun & Hidx & Hlen & Hget).
  exists out. split; [exact Hrun|]. split; [exact Hidx|].
  assert (length (index df) = length (rows df)) as E.
  { unfold index. by rewrite length_fmap. }
  split; [by rewrite E|]. split.
  - unfold backtest_strategy in Hrun.
    destruct (backtest_loop _ _ _ _) as [col|]; [|done].
    inversion Hrun; subst out. cbn [Cumulative_Returns Portfolio_Returns] in *.
    by rewrite E, <- Hlen, cumprod_from_one, cumprod_from_length, length_map.
  - intros i d cells Hi. rewrite (Hget i d cells Hi). unfold scheduled_return.
    destruct (last _) as [pf|] eqn:Hlast; [|done].
    f_equal. apply weighted_row_sum_dot_product; [done|].
    apply last_Some_elem_of, holdings_at_elem in Hlast as (row & _ & _ & Hrow).
    by eapply Hpf.
Qed.

Lemma backtest_returns_on_ascending_index_witness :
  ∃ out, backtest_strategy samples.one_portfolio samples.long_schedule
           samples.three_days = Returned out ∧
         sr_index out = index samples.three_days ∧
         length (Portfolio_Returns out) = length (index samples.three_days) ∧
         length (Cumulative_Returns out) = length (index samples.three_days) ∧
         ∀ i d cells, rows samples.three_days !! i = Some (d, cells) →
           Portfolio_Returns out !! i =
             Some (scheduled_return samples.one_portfolio samples.long_schedule
                     (columns samples.three_days) d cells).
Proof.
  apply (backtest_returns_on_ascending_index samples.one_portfolio
           samples.long_schedule samples.three_days).
  - reflexivity.
  - apply NoDup_singleton.
  - intros d pf H. unfold samples.one_portfolio in H.
    apply lookup_insert_Some in H as [[_ <-]|[_ H]]; [apply NoDup_singleton|].
    by rewrite lookup_empty in H.
Defined.

(** C9 (as stated) fails: the table ends on day 12, the window of the only
    entry runs from day 11 to day 20 and has a weight vector, and the
    backtester returns, with the window's return written on days 11 and 12
    only. *)
Lemma uncovered_window_counterexample :
  ¬ covers (index samples.three_days) 11 20 ∧
  samples.one_portfolio !! 11%Z = Some [samples.holding "A" 2] ∧
  ∃ out, backtest_strategy samples.one_portfolio samples.long_schedule
           samples.three_days = Returned out ∧
         sr_index out = [10; 11; 12]%Z ∧
         Portfolio_Returns out = [0; 2; 2]%R.
Proof.
  split; [|split; [reflexivity|]].
  - intros (lo & hi & _ & Hhi & _ & Hle). vm_compute in Hhi.
    repeat (apply elem_of_cons in Hhi as [->|Hhi]; [lia|]).
    by apply elem_of_nil in Hhi.
  - eexists. split; [vm_compute; reflexivity|]. split; [reflexivity|].
    vm_compute. repeat (f_equal; try lra).
Qed.

(** The one way the slicing itself fails: a bound that does not occur in an
    index that is not ordered. *)
Example unordered_index_raises :
  backtest_strategy samples.one_portfolio samples.long_schedule
    {| columns := ["A"];
       rows := [ (12%Z, [Some 1%R]); (10%Z, [Some 1%R]); (11%Z, [Some 1%R]) ] |}
  = Raised KeyError.
Proof. vm_compute. reflexivity. Qed.

(** ** The optimizer *)

Local Open Scope R_scope.

Lemma optimize_portfolio_Returned solver data br sr mw log pf v :
  optimize_portfolio solver data br sr mw log = Returned (pf, v) →
  status (solver (formulate (dropna data) br sr mw log)) = OPTIMAL ∧
  pf = zip_with (λ a w, {| asset := a; Optimized_Weight := w |}) (dropna data)
         (weights (length (dropna data)) (solver (formulate (dropna data) br sr mw log))) ∧
  v = value (solver (formulate (dropna data) br sr mw log)) ∧
  accepted (formulate (dropna data) br sr mw log).
Proof.
  unfold optimize_portfolio. cbn zeta. intros H.
  destruct (decide (accepted _)) as [Hacc|]; [|done].
  destruct (decide (status _ ≠ OPTIMAL)) as [|Hst]; [done|].
  apply dec_stable in Hst. by inversion H.
Qed.

(** A problem that reaches the solver ends as the status says; one that does
    not ends in the library's error. *)
Lemma optimize_portfolio_accepted solver data br sr mw log :
  accepted (formulate (dropna data) br sr mw log) →
  optimize_portfolio solver data br sr mw log
  = if decide (status (solver (formulate (dropna data) br sr mw log)) ≠ OPTIMAL)
    then Raised (ValueError (failure_message
                   (status (solver (formulate (dropna data) br sr mw log)))))
    else Returned
           (zip_with (λ a w, {| asset := a; Optimized_Weight := w |}) (dropna data)
              (weights (length (dropna data))
                 (solver (formulate (dropna data) br sr mw log))),
            value (solver (formulate (dropna data) br sr mw log))).
Proof. intros Hacc. unfold optimize_portfolio. cbn zeta. by rewrite decide_True. Qed.

Lemma optimize_portfolio_rejected solver data br sr mw log :
  ¬ accepted (formulate (dropna data) br sr mw log) →
  optimize_portfolio solver data br sr mw log = Raised LibraryValueError.
Proof. intros Hacc. unfold optimize_portfolio. cbn zeta. by rewrite decide_False. Qed.

Lemma series_mean_valid col :
  valid col ≠ [] → series_mean col = Some (mean (valid col)).
Proof. unfold series_mean, mean. by destruct (valid col). Qed.

Lemma series_std_sample col :
  (2 ≤ length (valid col))%nat → series_std col = Some (sample_std (valid col)).
Proof.
  intros Hn. unfold series_std, sample_std, sum_sq_dev, mean.
  rewrite decide_False by lia. do 2 f_equal.
  rewrite minus_INR by lia. cbn [INR]. f_equal.
  apply Rsum_map_ext. intros x _. lra.
Qed.

Lemma pair_universe_signal :
  map (SIGNAL false) (dropna samples.pair_universe) = [Some 0; Some 2].
Proof.
  cbn. unfold SIGNAL, LOG_ADV. cbn.
  destruct (Req_dec_T 1 0) as [?|_]; [lra|]. cbn.
  destruct (Req_dec_T 1 0) as [?|_]; [lra|]. cbn.
  destruct (Req_dec_T 1 0) as [?|_]; [lra|].
  repeat f_equal; lra.
Qed.

Lemma sample_std_0_2 : sample_std [0; 2] = sqrt 2.
Proof. unfold sample_std, sum_sq_dev, mean. cbn. f_equal. lra. Qed.

Lemma pair_universe_accepted br sr mw :
  accepted (formulate (dropna samples.pair_universe) br sr mw false).
Proof.
  split; [cbn; lia|]. cbn [formulate objective]. unfold Z_SCORE. cbn zeta.
  rewrite pair_universe_signal.
  rewrite series_mean_valid, series_std_sample by (cbn; first [done|lia]).
  cbn [valid omap list_omap option_bind mbind map nan_sub nan_div].
  change (omap (λ x : option R, x) [Some 0; Some 2]) with [0; 2].
  rewrite sample_std_0_2. pose proof Rlt_sqrt2_0 as Hpos.
  cbn. destruct (Req_dec_T (sqrt 2) 0) as [?|_]; [lra|].
  repeat constructor; by eexists.
Qed.

Lemma pair_universe_answered s br sr mw :
  optimize_portfolio (samples.answering s) samples.pair_universe br sr mw false
  = if decide (status s ≠ OPTIMAL)
    then Raised (ValueError (failure_message (status s)))
    else Returned
           (zip_with (λ a w, {| asset := a; Optimized_Weight := w |})
              (dropna samples.pair_universe)
              (weights (length (dropna samples.pair_universe)) s),
            value s).
Proof. by rewrite optimize_portfolio_accepted by apply pair_universe_accepted. Qed.

Lemma pair_universe_long_short br sr mw :
  optimize_portfolio (samples.answering samples.long_first_short_second)
    samples.pair_universe br sr mw false
  = Returned (samples.long_short_pair, -1).
Proof. rewrite pair_universe_answered. vm_compute. reflexivity. Qed.

Lemma weights_length n s : length (weights n s) = n.
Proof. unfold weights, array. by rewrite length_map, length_seq. Qed.

Lemma weights_lookup n s i :
  (i < n)%nat → weights n s !! i = Some (longs_value s i - shorts_value s i).
Proof.
  intros Hi. unfold weights, array.
  rewrite list_lookup_fmap, lookup_seq_lt by done. done.
Qed.

Lemma Optimized_Weight_zip (data : list Asset) (ws : list R) :
  length ws = length data →
  map Optimized_Weight (zip_with (λ a w, {| asset := a; Optimized_Weight := w |}) data ws) = ws.
Proof.
  revert ws. induction data as [|a data IH]; intros [|w ws] Hl; try done.
  simpl in *. f_equal. apply IH. lia.
Qed.

Lemma Rsum_map_opp {A} (f : A → R) l :
  Rsum (map (λ x, - f x) l) = - Rsum (map f l).
Proof. induction l as [|x l IH]; simpl; [lra|]. rewrite IH. lra. Qed.

(** What a feasible assignment of the formulated problem satisfies. *)
Lemma feasible_formulate data br sr mw log s :
  feasible (formulate data br sr mw log) s →
  in_domain (length data) s ∧
  Rsum (array (length data) (longs_value s)) = 1 ∧
  Rsum (array (length data) (shorts_value s)) = 1 ∧
  (∀ i, (i < length data)%nat → longs_value s i <= mw * z_value s i) ∧
  (∀ i, (i < length data)%nat → shorts_value s i <= mw * (1 - z_value s i)) ∧
  br.1 <= dotR (map BETA_RAW_OVERRIDABLE data) (weights (length data) s) <= br.2 ∧
  ∀ col, col ∈ sector_dummies data →
    sr.1 <= dotR col.2 (weights (length data) s) <= sr.2.
Proof.
  intros [Hdom Hall]. cbn [formulate n_assets constraints] in *.
  rewrite !Forall_app, !Forall_cons in Hall.
  destruct Hall as ((Hl & Hs & _) & (Hlz & Hsz & _) & (Hb1 & Hb2 & _) & Hsec).
  cbn [holds eval] in *.
  repeat (split; [first [done | lra]|]).
  intros col Hcol. rewrite Forall_flat_map, Forall_forall in Hsec.
  specialize (Hsec col Hcol). rewrite !Forall_cons in Hsec.
  destruct Hsec as (H1 & H2 & _). cbn [holds eval] in *. lra.
Qed.

(** Each asset is long or short, never both, and within the cap. *)
Lemma long_or_short n mw s i :
  in_domain n s →
  (∀ i, (i < n)%nat → longs_value s i <= mw * z_value s i) →
  (∀ i, (i < n)%nat → shorts_value s i <= mw * (1 - z_value s i)) →
  (i < n)%nat →
  (longs_value s i = 0 ∧ 0 <= shorts_value s i <= mw) ∨
  (shorts_value s i = 0 ∧ 0 <= longs_value s i <= mw).
Proof.
  intros Hdom Hl Hs Hi.
  destruct (Hdom i Hi) as (H0l & H0s & [Hz|Hz]);
    specialize (Hl i Hi); specialize (Hs i Hi); rewrite Hz in Hl, Hs.
  - left. lra.
  - right. lra.
Qed.

(** C1.  When [optimize_portfolio] returns and the solver's optimal
    assignment satisfies the constraints it was given, the strictly positive
    weights of the returned table sum to 1 and the strictly negative ones
    to -1. *)
Theorem long_and_short_books_sum_to_one solver data br sr mw log pf v :
  optimize_portfolio solver data br sr mw log = Returned (pf, v) →
  feasible (formulate (dropna data) br sr mw log)
           (solver (formulate (dropna data) br sr mw log)) →
  positive_sum (map Optimized_Weight pf) = 1 ∧
  negative_sum (map Optimized_Weight pf) = -1.
Proof.
  intros Hrun Hfeas.
  apply optimize_portfolio_Returned in Hrun as (_ & -> & _).
  apply feasible_formulate in Hfeas as (Hdom & Hl & Hs & Hlz & Hsz & _).
  set (s := solver _) in *. set (n := length (dropna data)) in *.
  rewrite Optimized_Weight_zip by apply weights_length.
  unfold positive_sum, negative_sum, weights, array in *. rewrite !map_map.
  split.
  - rewrite <- Hl. apply Rsum_map_ext. intros i Hi.
    apply elem_of_seq in Hi.
    destruct (long_or_short n mw s i Hdom Hlz Hsz) as [[? ?]|[? ?]]; [lia| |];
      destruct (Rlt_dec _ _); lra.
  - transitivity (- Rsum (map (shorts_value s) (seq 0 n))); [|lra].
    rewrite <- Rsum_map_opp. apply Rsum_map_ext. intros i Hi.
    apply elem_of_seq in Hi.
    destruct (long_or_short n mw s i Hdom Hlz Hsz) as [[? ?]|[? ?]]; [lia| |];
      destruct (Rlt_dec _ _); lra.
Qed.

Lemma pair_universe_feasible :
  feasible (formulate (dropna samples.pair_universe) (-1/100, 1/100) (-1/100, 1/100) 1 false)
           samples.long_first_short_second.
Proof.
  split.
  - intros i Hi. cbn in Hi.
    destruct i as [|[|i]]; cbn; [lra|lra|lia].
  - unfold formulate. cbn [n_assets constraints].
    replace (sector_dummies (dropna samples.pair_universe))
      with [("Energy", [1; 1])] by (vm_compute; reflexivity).
    cbn. rewrite !Forall_cons, Forall_nil. cbn.
    repeat split; try lra;
      intros i Hi; destruct i as [|[|i]]; cbn; solve [lra|lia].
Qed.

Lemma long_and_short_books_sum_to_one_witness :
  ∃ pf v,
    optimize_portfolio (samples.answering samples.long_first_short_second)
      samples.pair_universe (-1/100, 1/100) (-1/100, 1/100) 1 false = Returned (pf, v) ∧
    positive_sum (map Optimized_Weight pf) = 1 ∧
    negative_sum (map Optimized_Weight pf) = -1.
Proof.
  eexists _, _. split; [rewrite pair_universe_answered; vm_compute; reflexivity|].
  eapply (long_and_short_books_sum_to_one
            (samples.answering samples.long_first_short_second)
            samples.pair_universe (-1/100, 1/100) (-1/100, 1/100) 1 false).
  - rewrite pair_universe_answered; vm_compute; reflexivity.
  - apply pair_universe_feasible.
Defined.

(** C2.  When [optimize_portfolio] returns and the solver's optimal
    assignment satisfies the constraints it was given, every row of the
    returned table carries the long value minus the short value of its
    asset, its absolute value does not exceed [max_weight], and no asset has
    both a strictly positive long value and a strictly positive short one. *)
Theorem weight_capped_and_one_sided solver data br sr mw log pf v i row :
  optimize_portfolio solver data br sr mw log = Returned (pf, v) →
  feasible (formulate (dropna data) br sr mw log)
           (solver (formulate (dropna data) br sr mw log)) →
  pf !! i = Some row →
  Optimized_Weight row =
    longs_value (solver (formulate (dropna data) br sr mw log)) i
    - shorts_value (solver (formulate (dropna data) br sr mw log)) i ∧
  Rabs (Optimized_Weight row) <= mw ∧
  ¬ (0 < longs_value (solver (formulate (dropna data) br sr mw log)) i ∧
     0 < shorts_value (solver (formulate (dropna data) br sr mw log)) i).
Proof.
  intros Hrun Hfeas Hrow.
  apply optimize_portfolio_Returned in Hrun as (_ & -> & _).
  apply feasible_formulate in Hfeas as (Hdom & _ & _ & Hlz & Hsz & _).
  set (s := solver _) in *. set (n := length (dropna data)) in *.
  apply lookup_zip_with_Some in Hrow as (a & w & -> & Ha & Hw).
  assert (i < n)%nat as Hi by (by eapply lookup_lt_Some).
  rewrite weights_lookup in Hw by done. inversion Hw; subst w. cbn.
  split; [done|].
  destruct (long_or_short n mw s i Hdom Hlz Hsz Hi) as [[E ?]|[E ?]]; rewrite E.
  - split; [|lra]. rewrite Rabs_left1; lra.
  - split; [|lra]. rewrite Rabs_right; lra.
Qed.

Lemma weight_capped_and_one_sided_witness :
  ∃ pf v row,
    optimize_portfolio (samples.answering samples.long_first_short_second)
      samples.pair_universe (-1/100, 1/100) (-1/100, 1/100) 1 false = Returned (pf, v) ∧
    pf !! 1%nat = Some row ∧
    Optimized_Weight row = 0 - 1 ∧
    Rabs (Optimized_Weight row) <= 1 ∧
    ¬ (0 < 0 ∧ 0 < 1).
Proof.
  eexists _, _, _. split; [rewrite pair_universe_answered; vm_compute; reflexivity|]. split; [reflexivity|].
  eapply (weight_capped_and_one_sided
            (samples.answering samples.long_first_short_second)
            samples.pair_universe (-1/100, 1/100) (-1/100, 1/100) 1 false _ _ 1%nat).
  - rewrite pair_universe_answered; vm_compute; reflexivity.
  - apply pair_universe_feasible.
  - reflexivity.
Defined.

Lemma net_beta_exposure_zip (data : list Asset) (ws : list R) :
  net_beta_exposure (zip_with (λ a w, {| asset := a; Optimized_Weight := w |}) data ws)
  = dotR (map BETA_RAW_OVERRIDABLE data) ws.
Proof.
  unfold net_beta_exposure, dotR. revert ws.
  induction data as [|a data IH]; intros [|w ws]; try done.
  cbn. by rewrite IH.
Qed.

Lemma net_sector_exposure_zip (data : list Asset) (ws : list R) sector :
  net_sector_exposure (zip_with (λ a w, {| asset := a; Optimized_Weight := w |}) data ws)
    sector
  = dotR (map (λ a, if decide (GICS_SECTOR_NAME a = sector) then 1 else 0) data) ws.
Proof.
  unfold net_sector_exposure, dotR. revert ws.
  induction data as [|a data IH]; intros [|w ws]; try done.
  cbn [zip_with map]. simpl Rsum at 2.
  destruct (decide (GICS_SECTOR_NAME a = sector)) as [E|E].
  - rewrite filter_cons_True by done. cbn. rewrite IH. lra.
  - rewrite filter_cons_False by done. rewrite IH. lra.
Qed.

(** C3.  When [optimize_portfolio] returns and the solver's optimal
    assignment satisfies the constraints it was given, the net beta exposure
    of the returned table lies within [beta_target_range], bounds included,
    and so does, within [sector_exposure_target], the net exposure of every
    sector that occurs in the table. *)
Theorem exposures_within_ranges solver data br sr mw log pf v :
  optimize_portfolio solver data br sr mw log = Returned (pf, v) →
  feasible (formulate (dropna data) br sr mw log)
           (solver (formulate (dropna data) br sr mw log)) →
  br.1 <= net_beta_exposure pf <= br.2 ∧
  ∀ sector, sector ∈ map (λ row, GICS_SECTOR_NAME (asset row)) pf →
    sr.1 <= net_sector_exposure pf sector <= sr.2.
Proof.
  intros Hrun Hfeas.
  apply optimize_portfolio_Returned in Hrun as (_ & -> & _).
  apply feasible_formulate in Hfeas as (_ & _ & _ & _ & _ & Hbeta & Hsec).
  set (s := solver _) in *. set (n := length (dropna data)) in *.
  split; [by rewrite net_beta_exposure_zip|].
  intros sector Hin. rewrite net_sector_exposure_zip.
  apply (Hsec (sector, _)). unfold sector_dummies.
  apply list_elem_of_fmap. exists sector. split; [done|].
  apply elem_of_remove_dups.
  apply list_elem_of_fmap in Hin as (row & -> & Hrow).
  apply list_elem_of_lookup in Hrow as (i & Hrow).
  apply lookup_zip_with_Some in Hrow as (a & w & -> & Ha & _). cbn.
  apply list_elem_of_fmap. exists a. split; [done|]. by eapply list_elem_of_lookup_2.
Qed.

Lemma exposures_within_ranges_witness :
  ∃ pf v,
    optimize_portfolio (samples.answering samples.long_first_short_second)
      samples.pair_universe (-1/100, 1/100) (-1/100, 1/100) 1 false = Returned (pf, v) ∧
    (-1/100 <= net_beta_exposure pf <= 1/100) ∧
    ∀ sector, sector ∈ map (λ row, GICS_SECTOR_NAME (asset row)) pf →
      -1/100 <= net_sector_exposure pf sector <= 1/100.
Proof.
  eexists _, _. split; [rewrite pair_universe_answered; vm_compute; reflexivity|].
  eapply (exposures_within_ranges
            (samples.answering samples.long_first_short_second)
            samples.pair_universe (-1/100, 1/100) (-1/100, 1/100) 1 false).
  - rewrite pair_universe_answered; vm_compute; reflexivity.
  - apply pair_universe_feasible.
Defined.

Lemma valid_length col : (length (valid col) ≤ length col)%nat.
Proof.
  unfold valid. induction col as [|[x|] col IH]; simpl; [lia|..];
    change (list_omap _ _ ?f col) with (omap f col); lia.
Qed.

Lemma series_std_few col : (length (valid col) < 2)%nat → series_std col = None.
Proof. intros Hn. unfold series_std. cbn zeta. by rewrite decide_True by lia. Qed.

Lemma Z_SCORE_few log data :
  (length (valid (map (SIGNAL log) data)) < 2)%nat →
  Z_SCORE log data = map (λ _, None) data.
Proof.
  intros Hn. unfold Z_SCORE. cbn zeta. rewrite series_std_few by done.
  rewrite map_map. apply map_ext. intros a. unfold nan_div.
  by destruct (nan_sub _ _).
Qed.

Lemma few_signals_rejected data br sr mw log :
  (length (valid (map (SIGNAL log) data)) < 2)%nat →
  ¬ accepted (formulate data br sr mw log).
Proof.
  intros Hn [Hne Hobj]. cbn [formulate n_assets objective] in Hne, Hobj.
  rewrite Z_SCORE_few in Hobj by done.
  destruct data as [|a data]; [done|]. cbn in Hobj.
  apply Forall_cons_1 in Hobj as [[z Hz] _]. done.
Qed.

Lemma raises_when_not_optimal solver data br sr mw log :
  accepted (formulate (dropna data) br sr mw log) →
  status (solver (formulate (dropna data) br sr mw log)) ≠ OPTIMAL →
  optimize_portfolio solver data br sr mw log
    = Raised (ValueError (failure_message
                (status (solver (formulate (dropna data) br sr mw log))))).
Proof.
  intros Hacc Hne. rewrite optimize_portfolio_accepted by done. by rewrite decide_True.
Qed.





(** An infeasible problem that reaches a solver reporting an optimum only
    with an assignment meeting the constraints ends in the status error. *)
Lemma infeasible_problem_raises solver data br sr mw log :
  accepted (formulate (dropna data) br sr mw log) →
  (status (solver (formulate (dropna data) br sr mw log)) = OPTIMAL →
   feasible (formulate (dropna data) br sr mw log)
            (solver (formulate (dropna data) br sr mw log))) →
  (∀ s, ¬ feasible (formulate (dropna data) br sr mw log) s) →
  optimize_portfolio solver data br sr mw log
    = Raised (ValueError (failure_message
                (status (solver (formulate (dropna data) br sr mw log))))).
Proof.
  intros Hacc Hsound Hinf. apply raises_when_not_optimal; [done|].
  intros Hopt. by eapply Hinf, Hsound.
Qed.

(** *** Standardisation of the signal *)

(** C7 (as amended).  When at least two signals of the filtered universe are
    defined and they are not all equal, the z-score of an asset is its signal
    minus the mean of the defined signals, divided by their sample standard
    deviation, the one with [n - 1] in the denominator (pandas' [ddof = 1]);
    an asset without a signal has no z-score. *)
Theorem z_score_uses_sample_deviation log data :
  (2 ≤ length (valid (map (SIGNAL log) data)))%nat →
  sample_std (valid (map (SIGNAL log) data)) ≠ 0 →
  Z_SCORE log data = standardize sample_std (map (SIGNAL log) data).
Proof.
  intros Hn Hsd. unfold Z_SCORE, standardize. cbn zeta.
  rewrite series_std_sample by done.
  rewrite series_mean_valid by (destruct (valid _); [simpl in Hn; lia|done]).
  apply map_ext. intros [x|]; [|done]. cbn.
  by destruct (Req_dec_T _ _).
Qed.

Lemma population_std_0_2 : population_std [0; 2] = 1.
Proof.
  unfold population_std, sum_sq_dev, mean. cbn.
  transitivity (sqrt 1); [f_equal; lra|apply sqrt_1].
Qed.

Lemma z_score_uses_sample_deviation_witness :
  Z_SCORE false (dropna samples.pair_universe)
  = standardize sample_std (map (SIGNAL false) (dropna samples.pair_universe)).
Proof.
  apply (z_score_uses_sample_deviation false (dropna samples.pair_universe)).
  - rewrite pair_universe_signal. cbn. lia.
  - rewrite pair_universe_signal. cbn [valid omap list_omap]. cbn.
    rewrite sample_std_0_2. pose proof Rlt_sqrt2_0. lra.
Defined.

(** C7 (as stated) fails: for signals 0 and 2 the population deviation is 1
    and would give the z-scores -1 and 1, while the function divides by the
    sample deviation, the square root of 2. *)
Lemma population_deviation_counterexample :
  Z_SCORE false (dropna samples.pair_universe)
  ≠ standardize population_std (map (SIGNAL false) (dropna samples.pair_universe)).
Proof.
  unfold Z_SCORE, standardize. cbn zeta. rewrite pair_universe_signal.
  rewrite series_mean_valid, series_std_sample by (cbn; first [done|lia]).
  cbn [valid omap list_omap option_bind mbind map nan_sub nan_div].
  change (omap (λ x : option R, x) [Some 0; Some 2]) with [0; 2].
  rewrite sample_std_0_2, population_std_0_2.
  pose proof Rlt_sqrt2_0 as Hpos. pose proof (sqrt_sqrt 2) as Hsq.
  cbn. destruct (Req_dec_T (sqrt 2) 0) as [?|_]; [lra|].
  intros H. injection H as E _.
  assert ((0 - mean [0; 2]) / sqrt 2 * sqrt 2 = 0 - mean [0; 2]) as F by (field; lra).
  rewrite E in F. unfold mean in F. cbn in F. nra.
Qed.

Local Close Scope R_scope.

(** ** The runner *)

Section runner_facts.

Variable solver : Problem → Solution.

Lemma create_portfolios_loop_spec sched items br sr mw log portfolios sols portfolios' sols' :
  create_portfolios_loop solver sched items br sr mw log portfolios sols
    = Returned (portfolios', sols') →
  (∀ d, is_Some (portfolios !! d) → is_Some (portfolios' !! d)) ∧
  (∀ d pf, portfolios' !! d = Some pf →
     portfolios !! d = Some pf ∨
     ∃ key data v, (key, data) ∈ items ∧ friday_of sched key = Returned d ∧
                   optimize_portfolio solver data br sr mw log = Returned (pf, v)) ∧
  (∀ d, (∀ key data, (key, data) ∈ items → friday_of sched key = Returned d →
           ∃ e, optimize_portfolio solver data br sr mw log = Raised e) →
        portfolios' !! d = portfolios !! d).
Proof.
  revert portfolios sols.
  induction items as [|[key data] items IH]; intros portfolios sols Hrun.
  - inversion Hrun; subst. split; [done|]. split; [by left|done].
  - cbn [create_portfolios_loop] in Hrun.
    destruct (friday_of sched key) as [date|] eqn:Hdate; [|done].
    cbn [outcome_bind] in Hrun.
    destruct (optimize_portfolio solver data br sr mw log) as [[pf0 v0]|e] eqn:Hopt.
    + apply IH in Hrun as (Hkeep & Hfrom & Hfail). repeat split.
      * intros d Hd. apply Hkeep. rewrite lookup_insert.
        case_decide; [by eexists|done].
      * intros d pf Hpf. destruct (Hfrom d pf Hpf) as [Hin|(k & dt & v & Hin & Hk & Ho)].
        -- rewrite lookup_insert in Hin. case_decide as Hdd.
           ++ inversion Hin; subst. right. exists key, data, v0.
              split; [left|done].
           ++ by left.
        -- right. exists k, dt, v. split; [by right|done].
      * intros d Hall. rewrite Hfail.
        -- rewrite lookup_insert. case_decide as Hdd; [|done]. subst.
           destruct (Hall key data) as [e He]; [left|done|congruence].
        -- intros k dt Hin. apply Hall. by right.
    + apply IH in Hrun as (Hkeep & Hfrom & Hfail). repeat split.
      * done.
      * intros d pf Hpf. destruct (Hfrom d pf Hpf) as [Hin|(k & dt & v & Hin & Hk & Ho)].
        -- by left.
        -- right. exists k, dt, v. split; [by right|done].
      * intros d Hall. apply Hfail. intros k dt Hin. apply Hall. by right.
Qed.

Lemma create_portfolios_Returned self br sr mw log self1 :
  create_portfolios solver self br sr mw log = Returned self1 →
  schedule self1 = schedule self ∧ returns self1 = returns self ∧
  constituent_data self1 = constituent_data self ∧
  ∃ sols, create_portfolios_loop solver (schedule self) (constituent_data self)
            br sr mw log (optimized_portfolios self) (solutions self)
          = Returned (optimized_portfolios self1, sols).
Proof.
  unfold create_portfolios. intros H.
  destruct (constituent_data self) as [|item items] eqn:Hcd; [done|].
  destruct (create_portfolios_loop _ _ _ _ _ _ _ _ _) as [[p sols]|]; [|done].
  inversion H; subst. cbn. repeat split. by exists sols.
Qed.

Lemma run_backtest_Returned self1 self2 :
  run_backtest self1 = Returned self2 →
  optimized_portfolios self2 = optimized_portfolios self1 ∧
  ∃ table out, schedule self1 = Some table ∧
    backtest_strategy (optimized_portfolios self1) table (returns self1) = Returned out ∧
    strategy_returns self2 = zip (sr_index out) (Portfolio_Returns out) ∧
    cumulative_strategy_returns self2 = zip (sr_index out) (Cumulative_Returns out).
Proof.
  unfold run_backtest. intros H.
  destruct (decide (optimized_portfolios self1 = ∅)); [done|].
  destruct (schedule self1) as [table|]; [|done].
  destruct (backtest_strategy _ _ _) as [out|] eqn:Hout; [|done].
  inversion H; subst. cbn. split; [done|]. by exists table, out.
Qed.

Lemma grid_step_Returned self start b s m l self' result :
  grid_step solver self start (b, s, m, l) = Returned (self', result) →
  ∃ self1, create_portfolios solver self ((- b)%R, b) ((- s)%R, s) m l = Returned self1 ∧
           run_backtest self1 = Returned self'.
Proof.
  unfold grid_step. intros H.
  destruct (create_portfolios _ _ _ _ _ _) as [self1|] eqn:Hc; [|done]. cbn in H.
  destruct (run_backtest self1) as [self2|] eqn:Hb; [|done]. cbn in H.
  destruct (final_cumulative _ _); [|done]. inversion H; subst. by exists self1.
Qed.

(** C10.  One combination of the sweep runs [create_portfolios] and then the
    backtest.  [create_portfolios] never removes a date from the map of
    optimized portfolios: every entry it leaves is the old one or the table
    of an optimization that succeeded for that date; and a date for which
    every optimization fails under the current combination keeps the entry
    it had.  The backtest that follows runs on that map, so on a day of the
    date's window that no later entry holds, the strategy return is the dot
    product with the retained, stale weights. *)
Theorem grid_step_keeps_stale_portfolio self start b s m l self' result d pf :
  grid_step solver self start (b, s, m, l) = Returned (self', result) →
  optimized_portfolios self !! d = Some pf →
  (∀ key data, (key, data) ∈ constituent_data self →
     friday_of (schedule self) key = Returned d →
     ∃ e, optimize_portfolio solver data ((- b)%R, b) ((- s)%R, s) m l = Raised e) →
  ∃ self1,
    create_portfolios solver self ((- b)%R, b) ((- s)%R, s) m l = Returned self1 ∧
    run_backtest self1 = Returned self' ∧
    (∀ d', is_Some (optimized_portfolios self !! d') →
           is_Some (optimized_portfolios self1 !! d')) ∧
    (∀ d' pf', optimized_portfolios self1 !! d' = Some pf' →
       optimized_portfolios self !! d' = Some pf' ∨
       ∃ key data v, (key, data) ∈ constituent_data self ∧
         friday_of (schedule self) key = Returned d' ∧
         optimize_portfolio solver data ((- b)%R, b) ((- s)%R, s) m l = Returned (pf', v)) ∧
    optimized_portfolios self1 !! d = Some pf ∧
    optimized_portfolios self' !! d = Some pf ∧
    ∃ table out,
      schedule self = Some table ∧
      backtest_strategy (optimized_portfolios self') table (returns self) = Returned out ∧
      strategy_returns self' = zip (sr_index out) (Portfolio_Returns out) ∧
      ∀ before entry after i d' cells,
        is_monotonic_increasing (index (returns self)) = true →
        NoDup (columns (returns self)) →
        NoDup (weight_series pf).*1 →
        table = before ++ entry :: after →
        Third_to_Last_Friday entry = d →
        in_window entry d' = true →
        holdings_at (optimized_portfolios self') after d' = [] →
        rows (returns self) !! i = Some (d', cells) →
        strategy_returns self' !! i
          = Some (d', dot_product (weight_series pf) (columns (returns self)) cells).
Proof.
  intros Hstep Hold Hfail.
  apply grid_step_Returned in Hstep as (self1 & Hcreate & Hback).
  exists self1. split; [exact Hcreate|]. split; [exact Hback|].
  apply create_portfolios_Returned in Hcreate as (Hsched & Hret & _ & sols & Hloop).
  apply create_portfolios_loop_spec in Hloop as (Hkeep & Hfrom & Hsame).
  apply run_backtest_Returned in Hback as (Hops & table & out & Htable & Hout & Hsr & _).
  split; [exact Hkeep|]. split; [exact Hfrom|].
  assert (optimized_portfolios self1 !! d = Some pf) as Hstale.
  { by rewrite (Hsame d Hfail). }
  split; [exact Hstale|]. rewrite Hops. split; [exact Hstale|].
  exists table, out. rewrite <- Hsched, <- Hret. split; [exact Htable|].
  split; [exact Hout|]. split; [exact Hsr|].
  intros before entry after i d' cells Hm Hcols Hpf -> Hentry Hw Hafter Hi.
  pose proof (backtest_last_entry_return _ before entry after _ out pf i d' cells
                Hm Hcols Hpf Hout) as Hval.
  rewrite Hentry in Hval. specialize (Hval Hstale Hi Hw Hafter).
  rewrite Hsr. apply lookup_zip_with_Some. exists d', (dot_product (weight_series pf) (columns (returns self1)) cells).
  split; [done|]. split; [|exact Hval].
  destruct (backtest_strategy_monotonic (optimized_portfolios self1)
              (before ++ entry :: after) (returns self1) Hm)
    as (out' & Hrun' & Hidx & _).
  rewrite Hout in Hrun'. inversion Hrun'; subst out'.
  rewrite Hidx. unfold index. by rewrite list_lookup_fmap, Hi.
Qed.

End runner_facts.

Lemma grid_step_keeps_stale_portfolio_witness :
  ∃ self' result,
    grid_step (samples.answering samples.no_solution) samples.mid_sweep 10
      ((1/100)%R, (1/100)%R, 1%R, false) = Returned (self', result) ∧
    optimized_portfolios self' !! 11%Z = Some [samples.holding "A" 2] ∧
    strategy_returns self' !! 1%nat
      = Some (11%Z, dot_product (weight_series [samples.holding "A" 2])
                      (columns samples.three_days) [Some 1%R]).
Proof.
  assert (∃ self' result,
            grid_step (samples.answering samples.no_solution) samples.mid_sweep 10
              ((1/100)%R, (1/100)%R, 1%R, false) = Returned (self', result))
    as (self' & result & Hstep).
  { unfold grid_step, create_portfolios.
    cbn [samples.mid_sweep constituent_data schedule optimized_portfolios solutions
         create_portfolios_loop].
    rewrite pair_universe_answered. eexists _, _. vm_compute. reflexivity. }
  exists self', result. split; [exact Hstep|].
  destruct (grid_step_keeps_stale_portfolio
              (samples.answering samples.no_solution) samples.mid_sweep 10
              (1/100)%R (1/100)%R 1%R false self' result 11%Z [samples.holding "A" 2])
    as (self1 & _ & _ & _ & _ & _ & Hstale & table & out & Htable & _ & _ & Hval).
  - exact Hstep.
  - reflexivity.
  - intros key data Hin _. apply list_elem_of_singleton in Hin.
    inversion Hin; subst. rewrite pair_universe_answered.
    eexists. vm_compute. reflexivity.
  - split; [exact Hstale|].
    inversion Htable; subst table.
    apply (Hval [] (samples.quarter 11 20) [] 1%nat 11%Z [Some 1%R]); try reflexivity;
      apply NoDup_singleton.
Defined.

(** ** A sweep of two combinations *)

Local Open Scope R_scope.

Lemma cap_sensitive_full_cap br sr log data :
  samples.cap_sensitive (formulate data br sr 1 log) = samples.long_first_short_second.
Proof. unfold samples.cap_sensitive. cbn. by destruct (Rle_dec 1 1) as [_|?]; [|lra]. Qed.

Lemma cap_sensitive_small_cap br sr mw log data :
  mw < 1 → samples.cap_sensitive (formulate data br sr mw log) = samples.no_solution.
Proof. intros H. unfold samples.cap_sensitive. cbn. by destruct (Rle_dec 1 mw) as [?|_]; [lra|]. Qed.

Lemma pair_universe_full_cap br sr :
  optimize_portfolio samples.cap_sensitive samples.pair_universe br sr 1 false
  = Returned (samples.long_short_pair, -1).
Proof.
  rewrite optimize_portfolio_accepted by apply pair_universe_accepted.
  rewrite cap_sensitive_full_cap. vm_compute. reflexivity.
Qed.

Lemma pair_universe_small_cap br sr mw :
  mw < 1 →
  optimize_portfolio samples.cap_sensitive samples.pair_universe br sr mw false
  = Raised (ValueError "Optimization failed. Status: infeasible").
Proof.
  intros H. rewrite optimize_portfolio_accepted by apply pair_universe_accepted.
  rewrite cap_sensitive_small_cap by done. reflexivity.
Qed.

Lemma sweep_first_combination :
  ∃ self1 row,
    grid_step samples.cap_sensitive samples.fresh 10 (1/100, 1/100, 1, false)
      = Returned (self1, row) ∧
    schedule self1 = Some samples.long_schedule ∧
    constituent_data self1 = [ (10%Z, samples.pair_universe) ] ∧
    returns self1 = samples.three_days ∧
    optimized_portfolios self1
      = <[ 11%Z := samples.long_short_pair ]> ∅.
Proof.
  unfold grid_step, create_portfolios.
  cbn [samples.fresh constituent_data schedule optimized_portfolios solutions
       create_portfolios_loop].
  rewrite pair_universe_full_cap.
  eexists _, _. split; [vm_compute; reflexivity|]. repeat split.
Qed.

(** A sweep over the caps 1 and 1/2: the second combination is infeasible
    for the only rebalance date, the map still holds the portfolio of the
    first combination, and the second backtest is computed from it. *)
Example sweep_retains_earlier_portfolio :
  ∃ self' results,
    grid_search samples.cap_sensitive samples.fresh [1/100] [1/100] [1; 1/2] [false] 10
      = Returned (self', results) ∧
    length results = 2%nat ∧
    optimized_portfolios self' !! 11%Z
      = Some samples.long_short_pair ∧
    strategy_returns self' = [ (10%Z, 0); (11%Z, 1); (12%Z, 1) ].
Proof.
  unfold grid_search, param_combinations. cbn [mbind list_bind app].
  cbn [grid_search_loop].
  destruct sweep_first_combination as (self1 & row1 & -> & Hs & Hc & Hr & Ho).
  cbn [outcome_bind]. destruct self1 as [sch cd ret ops sols csr sr].
  cbn in Hs, Hc, Hr, Ho. subst.
  unfold grid_step, create_portfolios.
  cbn [constituent_data schedule optimized_portfolios solutions create_portfolios_loop].
  rewrite pair_universe_small_cap by lra.
  eexists _, _. split; [vm_compute; reflexivity|].
  split; [reflexivity|]. split; [reflexivity|].
  vm_compute. repeat (f_equal; try lra).
Qed.

(** Two assets under a cap of one tenth cannot fill a long book of one, so
    any solver that reports an optimum only with a feasible assignment makes
    [optimize_portfolio] fail on them with the status error. *)
Lemma small_cap_infeasible br sr log s :
  ¬ feasible (formulate (dropna samples.pair_universe) br sr (1/10) log) s.
Proof.
  intros Hf. apply feasible_formulate in Hf as (Hdom & Hl & _ & Hlz & _).
  cbn in Hdom, Hl, Hlz.
  pose proof (Hdom 0%nat) as H0. pose proof (Hdom 1%nat) as H1.
  pose proof (Hlz 0%nat) as L0. pose proof (Hlz 1%nat) as L1.
  destruct H0 as (_ & _ & [Z0|Z0]); [lia|..];
    destruct H1 as (_ & _ & [Z1|Z1]); try lia;
    specialize (L0 ltac:(lia)); specialize (L1 ltac:(lia));
    rewrite Z0 in L0; rewrite Z1 in L1; lra.
Qed.

Example small_cap_raises solver br sr :
  (status (solver (formulate (dropna samples.pair_universe) br sr (1/10) false)) = OPTIMAL →
   feasible (formulate (dropna samples.pair_universe) br sr (1/10) false)
            (solver (formulate (dropna samples.pair_universe) br sr (1/10) false))) →
  ∃ st, optimize_portfolio solver samples.pair_universe br sr (1/10) false
        = Raised (ValueError ("Optimization failed. Status: " +:+ st)).
Proof.
  intros Hsound. eexists. apply infeasible_problem_raises; [|exact Hsound|].
  - apply pair_universe_accepted.
  - apply small_cap_infeasible.
Qed.

Local Close Scope R_scope.

(** * Further properties *)

(** ** The schedule of get_fridays.py *)

(** Membership of a number in an explicit list. *)
Ltac listed :=
  first [ apply list_elem_of_In; vm_compute; lia
        | let H := fresh in
          intros H; apply list_elem_of_In in H; vm_compute in H; lia ].

Example first_quarter_2023 :
  get_last_fridays_for_years 2023 2022 = [] ∧
  Timestamp 1970 1 1 = 0%Z ∧ Timestamp 2023 3 31 = 19447%Z ∧
  weekday (Timestamp 2023 3 31) = 4%Z ∧
  head (get_last_fridays_for_years 2023 2023)
  = Some {| Year := 2023; Quarter := "Q1";
            Second_to_Last_Friday := Timestamp 2023 3 24;
            Third_to_Last_Friday := Timestamp 2023 3 17;
            Third_to_Last_Thursday := Timestamp 2023 3 16;
            Second_to_last_friday_previous := Timestamp 2022 12 23 |}.
Proof. vm_compute. done. Qed.

Lemma weekday_range t : (0 ≤ weekday t < 7)%Z.
Proof. unfold weekday. apply Z.mod_pos_bound. lia. Qed.

Lemma last_friday_spec e :
  let f := (e - (weekday e - 4) mod 7)%Z in
  weekday f = 4%Z ∧ (e - 6 ≤ f ≤ e)%Z.
Proof. cbn zeta. unfold weekday. Z.div_mod_to_equations. lia. Qed.

Lemma weekday_minus_week t : weekday (t - 7) = weekday t.
Proof. unfold weekday. Z.div_mod_to_equations. lia. Qed.

Lemma days_before_year_succ y :
  days_before_year (y + 1) = (days_before_year y + 365 + if is_leap y then 1 else 0)%Z.
Proof.
  unfold days_before_year, is_leap.
  replace (y + 1 - 1)%Z with y by lia.
  destruct (Z.eqb_spec (y mod 4) 0), (Z.eqb_spec (y mod 100) 0),
    (Z.eqb_spec (y mod 400) 0); cbn; Z.div_mod_to_equations; lia.
Qed.

Lemma days_before_year_mono y y' :
  (y ≤ y')%Z → (days_before_year y + 365 * (y' - y) ≤ days_before_year y')%Z.
Proof. unfold days_before_year. intros H. Z.div_mod_to_equations. lia. Qed.

Lemma quarter_row_dates year q e :
  weekday (Third_to_Last_Friday (quarter_row year q e)) = 4%Z ∧
  weekday (Second_to_Last_Friday (quarter_row year q e)) = 4%Z ∧
  weekday (Third_to_Last_Thursday (quarter_row year q e)) = 3%Z ∧
  (e - 20 ≤ Third_to_Last_Friday (quarter_row year q e) ≤ e - 14)%Z ∧
  Second_to_Last_Friday (quarter_row year q e)
    = (Third_to_Last_Friday (quarter_row year q e) + 7)%Z ∧
  Third_to_Last_Thursday (quarter_row year q e)
    = (Third_to_Last_Friday (quarter_row year q e) - 1)%Z.
Proof.
  cbn. pose proof (last_friday_spec e) as [Hw Hb]. cbn zeta in Hw, Hb.
  set (f := (e - (weekday e - 4) mod 7)%Z) in *.
  repeat split; try lia.
  - replace (f - 14)%Z with (f - 7 - 7)%Z by lia. by rewrite !weekday_minus_week.
  - by rewrite weekday_minus_week.
  - replace (f - 14 - 1)%Z with (f - 1 - 7 - 7)%Z by lia.
    rewrite !weekday_minus_week. revert Hw. unfold weekday.
    Z.div_mod_to_equations. lia.
Qed.

Lemma quarters_within_year y q e :
  (q, e) ∈ quarters y →
  (days_before_year y + 89 ≤ e ≤ days_before_year y + 365)%Z.
Proof.
  unfold quarters, Timestamp. intros H.
  repeat (apply elem_of_cons in H as [H|H];
          [inversion H; subst; cbn; destruct (is_leap y); lia|]).
  by apply elem_of_nil in H.
Qed.

Lemma elem_of_schedule start_year end_year r :
  r ∈ get_last_fridays_for_years start_year end_year ↔
  ∃ y q e, (start_year ≤ y ≤ end_year)%Z ∧ (q, e) ∈ quarters y ∧
           r = quarter_row y q e.
Proof.
  unfold get_last_fridays_for_years.
  rewrite list_elem_of_In, in_flat_map. split.
  - intros (y & Hy & Hr). apply list_elem_of_In, elem_of_seqZ in Hy.
    apply list_elem_of_In, list_elem_of_fmap in Hr as ([q e] & -> & Hq).
    exists y, q, e. split; [lia|done].
  - intros (y & q & e & Hy & Hq & ->). exists y. split.
    + apply list_elem_of_In, elem_of_seqZ. lia.
    + apply list_elem_of_In, list_elem_of_fmap. by exists (q, e).
Qed.

Lemma year_rows_non_overlapping y :
  non_overlapping (map (λ q, quarter_row y q.1 q.2) (quarters y)).
Proof.
  unfold non_overlapping, quarters. cbn [map fst snd].
  pose proof (quarter_row_dates y "Q1" (Timestamp y 3 31)) as (_ & _ & _ & ? & ? & _).
  pose proof (quarter_row_dates y "Q2" (Timestamp y 6 30)) as (_ & _ & _ & ? & ? & _).
  pose proof (quarter_row_dates y "Q3" (Timestamp y 9 30)) as (_ & _ & _ & ? & ? & _).
  pose proof (quarter_row_dates y "Q4" (Timestamp y 12 31)) as (_ & _ & _ & ? & ? & _).
  assert (Timestamp y 6 30 = Timestamp y 3 31 + 91)%Z
    by (unfold Timestamp; cbn; destruct (is_leap y); lia).
  assert (Timestamp y 9 30 = Timestamp y 6 30 + 92)%Z
    by (unfold Timestamp; cbn; destruct (is_leap y); lia).
  assert (Timestamp y 12 31 = Timestamp y 9 30 + 92)%Z
    by (unfold Timestamp; cbn; destruct (is_leap y); lia).
  repeat (apply SSorted_cons;
          [|repeat (apply Forall_cons_2; [unfold precedes; lia|]);
            apply Forall_nil_2]).
  apply SSorted_nil.
Qed.

Lemma schedule_non_overlapping_from n start_year :
  non_overlapping
    (flat_map (λ year, map (λ q, quarter_row year q.1 q.2) (quarters year))
              (seqZ start_year (Z.of_nat n))).
Proof.
  revert start_year. induction n as [|n IH]; intros start_year.
  - constructor.
  - rewrite seqZ_cons by lia. cbn [flat_map].
    replace (Z.pred (Z.of_nat (S n))) with (Z.of_nat n) by lia.
    apply StronglySorted_app_2; [|apply year_rows_non_overlapping|apply IH].
    intros r1 r2 H1 H2.
    apply list_elem_of_fmap in H1 as ([q1 e1] & -> & Hq1).
    apply list_elem_of_In, in_flat_map in H2 as (y2 & Hy2 & H2).
    apply list_elem_of_In, elem_of_seqZ in Hy2.
    apply list_elem_of_In, list_elem_of_fmap in H2 as ([q2 e2] & -> & Hq2).
    apply quarters_within_year in Hq1, Hq2.
    pose proof (quarter_row_dates start_year q1 e1) as (_ & _ & _ & ? & ? & _).
    pose proof (quarter_row_dates y2 q2 e2) as (_ & _ & _ & ? & ? & _).
    pose proof (days_before_year_mono (start_year + 1) y2 ltac:(lia)).
    pose proof (days_before_year_succ start_year).
    unfold precedes. cbn [fst snd] in *. destruct (is_leap start_year); lia.
Qed.

(** X1.  In the schedule of a range of years every row belongs to a year of
    the range and to one of its four quarters, and its dates are what their
    names say: the third-to-last and the second-to-last Friday on or before
    the quarter's last day, and the Thursday before the former. *)
Theorem schedule_rows_are_the_named_fridays start_year end_year row :
  schedule_years start_year end_year →
  row ∈ get_last_fridays_for_years start_year end_year →
  (start_year ≤ Year row ≤ end_year)%Z ∧
  ∃ end_date, (Quarter row, end_date) ∈ quarters (Year row) ∧
    weekday (Third_to_Last_Friday row) = 4%Z ∧
    weekday (Second_to_Last_Friday row) = 4%Z ∧
    weekday (Third_to_Last_Thursday row) = 3%Z ∧
    (end_date - 21 < Third_to_Last_Friday row ≤ end_date - 14)%Z ∧
    (end_date - 14 < Second_to_Last_Friday row ≤ end_date - 7)%Z ∧
    Third_to_Last_Thursday row = (Third_to_Last_Friday row - 1)%Z.
Proof.
  intros _ Hrow. apply elem_of_schedule in Hrow as (y & q & e & Hy & Hq & ->).
  pose proof (quarter_row_dates y q e) as (? & ? & ? & ? & ? & ?).
  split; [done|]. exists e. repeat split; try done; lia.
Qed.

Lemma schedule_rows_are_the_named_fridays_witness :
  weekday (Third_to_Last_Friday (quarter_row 2023 "Q2" (Timestamp 2023 6 30))) = 4%Z.
Proof.
  destruct (schedule_rows_are_the_named_fridays 2023 2023
              (quarter_row 2023 "Q2" (Timestamp 2023 6 30)))
    as (_ & e & _ & H & _).
  - unfold schedule_years. lia.
  - apply elem_of_schedule. exists 2023%Z, "Q2", (Timestamp 2023 6 30).
    split; [lia|]. split; [|done]. unfold quarters. set_solver.
  - exact H.
Defined.

(** X2.  The schedule of a range of years keeps the schedule invariant: each
    window runs from a Friday to the Friday after it, and it is over before
    the window of any later row opens, so the rows are in date order and no
    two windows share a day. *)
Theorem schedule_is_non_overlapping start_year end_year :
  schedule_years start_year end_year →
  non_overlapping (get_last_fridays_for_years start_year end_year) ∧
  ∀ row, row ∈ get_last_fridays_for_years start_year end_year →
         Second_to_Last_Friday row = (Third_to_Last_Friday row + 7)%Z.
Proof.
  intros _. split.
  - unfold get_last_fridays_for_years.
    destruct (decide (0 ≤ end_year + 1 - start_year)%Z) as [Hn|Hn].
    + rewrite <- (Z2Nat.id _ Hn). apply schedule_non_overlapping_from.
    + replace (seqZ start_year (end_year + 1 - start_year)) with (@nil Z).
      * constructor.
      * symmetry. apply seqZ_nil. lia.
  - intros row Hrow. apply elem_of_schedule in Hrow as (y & q & e & _ & _ & ->).
    by pose proof (quarter_row_dates y q e) as (_ & _ & _ & _ & ? & _).
Qed.

Lemma schedule_is_non_overlapping_witness :
  non_overlapping (get_last_fridays_for_years 2022 2023).
Proof.
  apply (schedule_is_non_overlapping 2022 2023). unfold schedule_years. lia.
Defined.

Lemma schedule_non_overlapping start_year end_year :
  non_overlapping (get_last_fridays_for_years start_year end_year).
Proof.
  unfold get_last_fridays_for_years.
  destruct (decide (0 ≤ end_year + 1 - start_year)%Z) as [Hn|Hn].
  - rewrite <- (Z2Nat.id _ Hn). apply schedule_non_overlapping_from.
  - replace (seqZ start_year (end_year + 1 - start_year)) with (@nil Z).
    + constructor.
    + symmetry. apply seqZ_nil. lia.
Qed.

(** Rows that follow one another. *)
Lemma adjacent_app {A} (R : A → A → Prop) (l k : list A) :
  (∀ i x y, l !! i = Some x → l !! S i = Some y → R x y) →
  (∀ i x y, k !! i = Some x → k !! S i = Some y → R x y) →
  (∀ x y, last l = Some x → head k = Some y → R x y) →
  ∀ i x y, (l ++ k) !! i = Some x → (l ++ k) !! S i = Some y → R x y.
Proof.
  intros Hl Hk Hlk i x y Hx Hy.
  destruct (decide (S i < length l)) as [Hlt|Hge].
  - rewrite lookup_app_l in Hx, Hy by lia. by eapply Hl.
  - destruct (decide (i < length l)) as [Hi|Hi].
    + rewrite lookup_app_l in Hx by lia. rewrite lookup_app_r in Hy by lia.
      replace (S i - length l) with 0 in Hy by lia.
      apply (Hlk x y).
      * rewrite last_lookup. replace (Nat.pred (length l)) with i by lia. done.
      * by rewrite head_lookup.
    + rewrite lookup_app_r in Hx, Hy by lia.
      replace (S i - length l) with (S (i - length l)) in Hy by lia.
      by eapply Hk.
Qed.

Lemma previous_exit_from_year n start_year i r1 r2 :
  flat_map (λ year, map (λ q, quarter_row year q.1 q.2) (quarters year))
           (seqZ start_year (Z.of_nat n)) !! i = Some r1 →
  flat_map (λ year, map (λ q, quarter_row year q.1 q.2) (quarters year))
           (seqZ start_year (Z.of_nat n)) !! S i = Some r2 →
  Second_to_last_friday_previous r2 = Second_to_Last_Friday r1.
Proof.
  revert start_year i r1 r2. induction n as [|n IH]; intros start_year; [done|].
  rewrite seqZ_cons by lia. cbn [flat_map].
  replace (Z.pred (Z.of_nat (S n))) with (Z.of_nat n) by lia.
  apply adjacent_app.
  - intros i x y Hx Hy. unfold quarters in Hx, Hy. cbn [map fst snd] in Hx, Hy.
    destruct i as [|[|[|i]]]; cbn in Hx, Hy; try done;
      inversion Hx; inversion Hy; subst; reflexivity.
  - apply IH.
  - intros x y Hx Hy. unfold quarters in Hx. cbn in Hx. inversion Hx; subst x.
    destruct n as [|n]; [done|]. rewrite seqZ_cons in Hy by lia.
    unfold quarters in Hy. cbn in Hy. inversion Hy; subst y. cbn.
    replace (Z.succ start_year - 1)%Z with start_year by lia. done.
Qed.

(** X3.  In the schedule of a range of years the field
    [Second-to-last-friday previous] of a row is the second-to-last Friday of
    the row before it: the period over which the signal of a quarter is
    measured starts on the day the previous quarter's window closed. *)
Theorem schedule_previous_exit start_year end_year i r1 r2 :
  schedule_years start_year end_year →
  get_last_fridays_for_years start_year end_year !! i = Some r1 →
  get_last_fridays_for_years start_year end_year !! S i = Some r2 →
  Second_to_last_friday_previous r2 = Second_to_Last_Friday r1 ∧
  (Second_to_Last_Friday r1 < Third_to_Last_Thursday r2)%Z.
Proof.
  intros _ H1 H2. split.
  - unfold get_last_fridays_for_years in H1, H2.
    destruct (decide (0 ≤ end_year + 1 - start_year)%Z) as [Hn|Hn].
    + rewrite <- (Z2Nat.id _ Hn) in H1, H2.
      by eapply previous_exit_from_year.
    + rewrite seqZ_nil in H1 by lia. done.
  - pose proof (schedule_non_overlapping start_year end_year) as Hs.
    rewrite <- (take_drop_middle _ _ _ H1) in Hs, H2.
    apply StronglySorted_app_1_r in Hs. inversion Hs as [|? ? _ Hall]; subst.
    rewrite Forall_forall in Hall.
    assert (r2 ∈ drop (S i) (get_last_fridays_for_years start_year end_year)) as Hin.
    { apply (list_elem_of_lookup_2 _ 0). rewrite lookup_drop, Nat.add_0_r.
      rewrite take_drop_middle in H2 by done. done. }
    specialize (Hall r2 Hin). unfold precedes in Hall.
    pose proof (list_elem_of_lookup_2 _ _ _ H2) as Hr2.
    rewrite take_drop_middle in Hr2 by done.
    apply elem_of_schedule in Hr2 as (y & q & e & _ & _ & ->).
    pose proof (quarter_row_dates y q e) as (_ & _ & _ & _ & _ & Ht).
    rewrite Ht. pose proof (schedule_non_overlapping start_year end_year) as Hs'.
    clear -Hall Hs' H1 H2 Ht.
    (* the Thursday is the day before the Friday the window opens on, and
       the earlier window closed on a Friday *)
    assert (Second_to_Last_Friday r1 ≠ Third_to_Last_Friday (quarter_row y q e) - 1)%Z;
      [|lia].
    intros E.
    pose proof (list_elem_of_lookup_2 _ _ _ H1) as Hr1.
    apply elem_of_schedule in Hr1 as (y1 & q1 & e1 & _ & _ & ->).
    pose proof (quarter_row_dates y1 q1 e1) as (_ & Hw1 & _).
    pose proof (quarter_row_dates y q e) as (Hw2 & _).
    rewrite E in Hw1. revert Hw1 Hw2. unfold weekday.
    Z.div_mod_to_equations. lia.
Qed.

Lemma schedule_previous_exit_witness :
  ∃ r1 r2,
    get_last_fridays_for_years 2022 2023 !! 3%nat = Some r1 ∧
    get_last_fridays_for_years 2022 2023 !! 4%nat = Some r2 ∧
    Second_to_last_friday_previous r2 = Second_to_Last_Friday r1 ∧
    (Second_to_Last_Friday r1 < Third_to_Last_Thursday r2)%Z.
Proof.
  eexists _, _. split; [vm_compute; reflexivity|]. split; [vm_compute; reflexivity|].
  apply (schedule_previous_exit 2022 2023 3).
  - unfold schedule_years. lia.
  - vm_compute; reflexivity.
  - vm_compute; reflexivity.
Defined.

Lemma schedule_empty_iff start_year end_year :
  get_last_fridays_for_years start_year end_year = [] ↔ (end_year < start_year)%Z.
Proof.
  split.
  - intros Hnil. destruct (decide (end_year < start_year)%Z) as [|Hle]; [done|].
    assert (quarter_row start_year "Q1" (Timestamp start_year 3 31)
            ∈ get_last_fridays_for_years start_year end_year) as Hin.
    { apply elem_of_schedule. exists start_year, "Q1", (Timestamp start_year 3 31).
      split; [lia|]. split; [left|done]. }
    rewrite Hnil in Hin. by apply elem_of_nil in Hin.
  - intros Hlt. destruct (get_last_fridays_for_years _ _) as [|r rest] eqn:Hs; [done|].
    assert (r ∈ get_last_fridays_for_years start_year end_year) as Hin
      by (rewrite Hs; left).
    apply elem_of_schedule in Hin as (y & _ & _ & Hy & _). lia.
Qed.

Lemma friday_of_present table key :
  key ∈ map Third_to_Last_Thursday table →
  ∃ r, r ∈ table ∧ Third_to_Last_Thursday r = key ∧
       friday_of (Some table) key = Returned (Third_to_Last_Friday r).
Proof.
  intros Hin. apply list_elem_of_fmap in Hin as (row & -> & Hrow).
  assert (row ∈ filter (λ r, Third_to_Last_Thursday r = Third_to_Last_Thursday row)
                       table) as Hin by (by apply list_elem_of_filter).
  unfold friday_of. destruct table as [|r0 table]; [by apply elem_of_nil in Hrow|].
  destruct (filter _ (r0 :: table)) as [|r rest] eqn:Hf;
    [by apply elem_of_nil in Hin|].
  assert (r ∈ filter (λ r, Third_to_Last_Thursday r = Third_to_Last_Thursday row)
                     (r0 :: table)) as Hr by (rewrite Hf; left).
  apply list_elem_of_filter in Hr as [Hkey Hr]. by exists r.
Qed.

Lemma friday_of_absent table key :
  key ∉ map Third_to_Last_Thursday table →
  friday_of (Some table) key
  = Raised (match table with [] => KeyError | _ => IndexError end).
Proof.
  intros Hnot. unfold friday_of. destruct table as [|r0 table]; [done|].
  destruct (filter _ (r0 :: table)) as [|r rest] eqn:Hf; [done|].
  exfalso. apply Hnot.
  assert (r ∈ filter (λ r, Third_to_Last_Thursday r = key) (r0 :: table)) as Hr
    by (rewrite Hf; left).
  apply list_elem_of_filter in Hr as [Hkey Hr].
  apply list_elem_of_fmap. by exists r.
Qed.

(** X4.  With the schedule of a range of years that is not empty, the
    rebalance date looked up for a snapshot date is the day after it when
    the schedule has a row for that Thursday, and the lookup raises
    [IndexError] when it has none.  The schedule of an empty range (the end
    year before the start year) is a frame without columns, and every lookup
    in it raises [KeyError]. *)
Theorem friday_of_generated_schedule start_year end_year key :
  schedule_years start_year end_year →
  ((start_year ≤ end_year)%Z →
   key ∈ map Third_to_Last_Thursday (get_last_fridays_for_years start_year end_year) →
   friday_of (Some (get_last_fridays_for_years start_year end_year)) key
     = Returned (key + 1)%Z) ∧
  ((start_year ≤ end_year)%Z →
   key ∉ map Third_to_Last_Thursday (get_last_fridays_for_years start_year end_year) →
   friday_of (Some (get_last_fridays_for_years start_year end_year)) key
     = Raised IndexError) ∧
  ((end_year < start_year)%Z →
   friday_of (Some (get_last_fridays_for_years start_year end_year)) key
     = Raised KeyError).
Proof.
  intros _. split; [|split].
  - intros _ Hin. apply friday_of_present in Hin as (r & Hr & <- & ->).
    apply elem_of_schedule in Hr as (y & q & e & _ & _ & ->).
    pose proof (quarter_row_dates y q e) as (_ & _ & _ & _ & _ & Ht).
    f_equal. lia.
  - intros Hle Hnot. rewrite friday_of_absent by done.
    destruct (get_last_fridays_for_years _ _) eqn:Hs; [|done].
    apply schedule_empty_iff in Hs. lia.
  - intros Hlt. apply schedule_empty_iff in Hlt. by rewrite Hlt.
Qed.

Lemma friday_of_generated_schedule_witness :
  friday_of (Some (get_last_fridays_for_years 2023 2023)) (Timestamp 2023 3 16)
    = Returned (Timestamp 2023 3 16 + 1)%Z ∧
  friday_of (Some (get_last_fridays_for_years 2023 2023)) (Timestamp 2023 3 17)
    = Raised IndexError ∧
  friday_of (Some (get_last_fridays_for_years 2024 2023)) (Timestamp 2023 3 16)
    = Raised KeyError.
Proof.
  split; [|split].
  - apply (friday_of_generated_schedule 2023 2023 (Timestamp 2023 3 16)).
    + unfold schedule_years. lia.
    + lia.
    + listed.
  - apply (friday_of_generated_schedule 2023 2023 (Timestamp 2023 3 17)).
    + unfold schedule_years. lia.
    + lia.
    + listed.
  - apply (friday_of_generated_schedule 2024 2023 (Timestamp 2023 3 16)).
    + unfold schedule_years. lia.
    + lia.
Defined.

(** ** The backtester on a schedule that keeps its invariant *)

Lemma holdings_at_none optimized_portfolios schedule d :
  (∀ row, row ∈ schedule → in_window row d = false) →
  holdings_at optimized_portfolios schedule d = [].
Proof.
  induction schedule as [|row schedule IH]; intros H; [done|].
  cbn [holdings_at omap list_omap]. rewrite (H row) by left.
  apply IH. intros r Hr. apply H. by right.
Qed.

Lemma non_overlapping_later_rows optimized_portfolios before row after d :
  non_overlapping (before ++ row :: after) →
  in_window row d = true →
  holdings_at optimized_portfolios after d = [].
Proof.
  intros Hs Hw. apply holdings_at_none. intros r Hr.
  apply StronglySorted_app_1_r in Hs. inversion Hs as [|? ? _ Hall]; subst.
  rewrite Forall_forall in Hall. specialize (Hall r Hr).
  unfold precedes in Hall. unfold in_window in *.
  apply bool_decide_eq_true in Hw. apply bool_decide_eq_false. lia.
Qed.

Lemma non_overlapping_windows_keep_returns optimized_portfolios schedule df out :
  is_monotonic_increasing (index df) = true →
  NoDup (columns df) →
  (∀ d pf, optimized_portfolios !! d = Some pf → NoDup (weight_series pf).*1) →
  non_overlapping schedule →
  backtest_strategy optimized_portfolios schedule df = Returned out →
  every_window_keeps_its_return optimized_portfolios schedule df out.
Proof.
  intros Hm Hcols Hpf Hs Hrun row pf i d cells Hrow Hlook Hi Hw.
  apply list_elem_of_split in Hrow as (before & after & ->).
  eapply backtest_last_entry_return; eauto.
  by eapply non_overlapping_later_rows.
Qed.

(** X5.  On a schedule that keeps its invariant (each window is over before
    any later one opens) every entry with a weight vector sees its own dot
    product on every day of its window: over a date-ordered table, the daily
    return on each table day of the window is the dot product of that day's
    returns with that entry's weights. *)
Theorem non_overlapping_schedule_keeps_every_window optimized_portfolios schedule df out :
  is_monotonic_increasing (index df) = true →
  NoDup (columns df) →
  (∀ d pf, optimized_portfolios !! d = Some pf → NoDup (weight_series pf).*1) →
  non_overlapping schedule →
  backtest_strategy optimized_portfolios schedule df = Returned out →
  every_window_keeps_its_return optimized_portfolios schedule df out.
Proof. apply non_overlapping_windows_keep_returns. Qed.

Lemma non_overlapping_schedule_keeps_every_window_witness :
  ∃ out,
    backtest_strategy samples.one_portfolio samples.long_schedule samples.three_days
      = Returned out ∧
    every_window_keeps_its_return samples.one_portfolio samples.long_schedule
      samples.three_days out.
Proof.
  eexists. split; [vm_compute; reflexivity|].
  apply (non_overlapping_schedule_keeps_every_window samples.one_portfolio
           samples.long_schedule samples.three_days).
  - reflexivity.
  - apply NoDup_singleton.
  - intros d pf H. unfold samples.one_portfolio in H.
    apply lookup_insert_Some in H as [[_ <-]|[_ H]]; [apply NoDup_singleton|].
    by rewrite lookup_empty in H.
  - repeat constructor.
  - vm_compute; reflexivity.
Defined.

(** X6.  A runner whose schedule was generated for a range of years and
    whose return table is in date order gives, after [run_backtest], on every
    table day inside the window of a scheduled quarter that has a portfolio,
    the dot product of that day's returns with that quarter's weights: the
    generated windows never overwrite one another. *)
Theorem generated_schedule_backtest start_year end_year self self' row pf i d cells :
  schedule_years start_year end_year →
  is_monotonic_increasing (index (returns self)) = true →
  NoDup (columns (returns self)) →
  (∀ d pf, optimized_portfolios self !! d = Some pf → NoDup (weight_series pf).*1) →
  run_backtest (generate_schedule start_year end_year self) = Returned self' →
  row ∈ get_last_fridays_for_years start_year end_year →
  optimized_portfolios self !! Third_to_Last_Friday row = Some pf →
  rows (returns self) !! i = Some (d, cells) →
  (Third_to_Last_Friday row ≤ d ≤ Second_to_Last_Friday row)%Z →
  strategy_returns self' !! i
    = Some (d, dot_product (weight_series pf) (columns (returns self)) cells).
Proof.
  intros _ Hm Hcols Hpf Hrun Hrow Hlook Hi Hw.
  apply run_backtest_Returned in Hrun as (_ & table & out & Htable & Hout & Hsr & _).
  cbn in Htable, Hout. inversion Htable; subst table.
  rewrite Hsr. apply lookup_zip_with_Some. eexists _, _. split; [reflexivity|].
  split.
  - destruct (backtest_strategy_monotonic (optimized_portfolios self)
                (get_last_fridays_for_years start_year end_year) (returns self) Hm)
      as (out' & Hrun' & Hidx & _).
    rewrite Hout in Hrun'. inversion Hrun'; subst out'.
    rewrite Hidx. unfold index. by rewrite list_lookup_fmap, Hi.
  - eapply (non_overlapping_windows_keep_returns _ _ _ _ Hm Hcols Hpf
              (schedule_non_overlapping start_year end_year) Hout); eauto.
    unfold in_window. by apply bool_decide_eq_true.
Qed.

Lemma generated_schedule_backtest_witness :
  ∃ self',
    run_backtest (generate_schedule 2023 2023 samples2.march_runner) = Returned self' ∧
    strategy_returns self' !! 1%nat
      = Some (Timestamp 2023 3 24,
              dot_product (weight_series [samples.holding "A" 2]) ["A"] [Some 1%R]).
Proof.
  assert (∃ self', run_backtest (generate_schedule 2023 2023 samples2.march_runner)
                   = Returned self') as [self' Hrun]
    by (eexists; vm_compute; reflexivity).
  exists self'. split; [exact Hrun|].
  apply (generated_schedule_backtest 2023 2023 samples2.march_runner self'
           (quarter_row 2023 "Q1" (Timestamp 2023 3 31)) [samples.holding "A" 2]
           1%nat (Timestamp 2023 3 24) [Some 1%R]).
  - unfold schedule_years. lia.
  - reflexivity.
  - apply NoDup_singleton.
  - intros d pf H. cbn in H.
    apply lookup_insert_Some in H as [[_ <-]|[_ H]]; [apply NoDup_singleton|].
    by rewrite lookup_empty in H.
  - exact Hrun.
  - apply elem_of_schedule. exists 2023%Z, "Q1", (Timestamp 2023 3 31).
    split; [lia|]. split; [|done]. unfold quarters. set_solver.
  - reflexivity.
  - reflexivity.
  - vm_compute. split; discriminate.
Defined.

(** ** Edge behaviour of the backtester *)

Lemma backtest_loop_skips optimized_portfolios schedule df col :
  backtest_loop optimized_portfolios schedule df col
  = backtest_loop optimized_portfolios
      (filter (λ row, is_Some (optimized_portfolios !! Third_to_Last_Friday row)) schedule)
      df col.
Proof.
  revert col. induction schedule as [|row schedule IH]; intros col; [done|].
  destruct (optimized_portfolios !! Third_to_Last_Friday row) as [pf|] eqn:Hpf.
  - rewrite filter_cons_True by (by rewrite Hpf). cbn [backtest_loop]. rewrite Hpf.
    destruct (loc_slice _ _ _); [|done]. cbn [outcome_bind].
    destruct (loc_assign _ _ _ _ _); [|done]. cbn [outcome_bind]. apply IH.
  - rewrite filter_cons_False by (rewrite Hpf; by intros [? ?]).
    cbn [backtest_loop]. rewrite Hpf. apply IH.
Qed.

(** X7.  Schedule entries whose entry date has no weight vector have no
    effect at all, not even through their dates: the backtest of a schedule
    is the backtest of the schedule without them. *)
Theorem backtest_ignores_entries_without_weights optimized_portfolios schedule df :
  backtest_strategy optimized_portfolios schedule df
  = backtest_strategy optimized_portfolios
      (filter (λ row, is_Some (optimized_portfolios !! Third_to_Last_Friday row)) schedule)
      df.
Proof. unfold backtest_strategy. by rewrite <- backtest_loop_skips. Qed.

Lemma no_weights_like_empty_schedule optimized_portfolios schedule df :
  (∀ row, row ∈ schedule → optimized_portfolios !! Third_to_Last_Friday row = None) →
  backtest_strategy optimized_portfolios schedule df
  = backtest_strategy optimized_portfolios [] df.
Proof.
  intros Hnone. unfold backtest_strategy. rewrite backtest_loop_skips.
  replace (filter _ schedule) with (@nil ScheduleRow); [done|].
  symmetry. induction schedule as [|row schedule IH]; [done|].
  rewrite filter_cons_False.
  - apply IH. intros r Hr. apply Hnone. by right.
  - rewrite (Hnone row) by left. by intros [? ?].
Qed.

Lemma cumprod_from_ones acc n i c :
  acc = 1%R →
  cumprod_from acc (map (λ r, (1 + r)%R) (replicate n 0%R)) !! i = Some c → c = 1%R.
Proof.
  revert acc i. induction n as [|n IH]; intros acc i Hacc H; [done|].
  cbn in H. destruct i as [|i].
  - inversion H. subst. lra.
  - apply (IH (acc * (1 + 0))%R i); [subst; lra|done].
Qed.

(** X8.  When no schedule entry has a weight vector (an empty schedule or an
    empty map included) the backtester returns for any table, ordered or
    not: every daily return is 0 and every cumulative value is 1. *)
Theorem backtest_without_positions optimized_portfolios schedule df :
  (∀ row, row ∈ schedule → optimized_portfolios !! Third_to_Last_Friday row = None) →
  ∃ out, backtest_strategy optimized_portfolios schedule df = Returned out ∧
         sr_index out = index df ∧
         Portfolio_Returns out = replicate (length (index df)) 0%R ∧
         ∀ i c, Cumulative_Returns out !! i = Some c → c = 1%R.
Proof.
  intros Hnone. rewrite no_weights_like_empty_schedule by done.
  unfold backtest_strategy. cbn [backtest_loop outcome_bind].
  eexists. split; [reflexivity|]. cbn [sr_index Portfolio_Returns Cumulative_Returns].
  assert (fillna 0 (map (λ _ : Z, Some 0%R) (index df))
          = replicate (length (index df)) 0%R) as E.
  { unfold fillna. induction (index df) as [|x l IH]; [done|]. cbn. by rewrite IH. }
  rewrite E. split; [done|]. split; [done|].
  intros i c. rewrite cumprod_from_one. by apply cumprod_from_ones.
Qed.

Lemma backtest_without_positions_witness :
  ∃ out, backtest_strategy ∅ samples.overlapping_schedule samples.three_days
           = Returned out ∧
         sr_index out = index samples.three_days ∧
         Portfolio_Returns out = replicate (length (index samples.three_days)) 0%R ∧
         ∀ i c, Cumulative_Returns out !! i = Some c → c = 1%R.
Proof.
  apply (backtest_without_positions ∅ samples.overlapping_schedule samples.three_days).
  intros row _. apply lookup_empty.
Defined.

Lemma cumprod_from_positive acc l c :
  (0 < acc)%R → Forall (λ x, 0 < x)%R l → c ∈ cumprod_from acc l → (0 < c)%R.
Proof.
  revert acc. induction l as [|x l IH]; intros acc Hacc Hall Hc.
  - by apply elem_of_nil in Hc.
  - apply Forall_cons in Hall as [Hx Hall]. cbn in Hc.
    assert (0 < acc * x)%R by (by apply Rmult_lt_0_compat).
    apply elem_of_cons in Hc as [->|Hc]; [done|]. by eapply IH.
Qed.

(** X9.  As long as no daily portfolio return is a loss of the whole value
    or more, every value of the cumulative series is strictly positive. *)
Theorem cumulative_returns_positive optimized_portfolios schedule df out c :
  backtest_strategy optimized_portfolios schedule df = Returned out →
  Forall (λ r, -1 < r)%R (Portfolio_Returns out) →
  c ∈ Cumulative_Returns out → (0 < c)%R.
Proof.
  unfold backtest_strategy. intros Hrun Hall Hc.
  destruct (backtest_loop _ _ _ _) as [col|]; [|done].
  inversion Hrun; subst out. cbn [Portfolio_Returns Cumulative_Returns] in *.
  rewrite cumprod_from_one in Hc.
  apply (cumprod_from_positive 1 (map (λ r, (1 + r)%R) (fillna 0 col))); [lra| |done].
  apply Forall_fmap. eapply Forall_impl; [exact Hall|]. cbn. intros. lra.
Qed.

Lemma cumulative_returns_positive_witness :
  ∃ out c,
    backtest_strategy samples.two_portfolios samples.overlapping_schedule
      samples.three_days = Returned out ∧
    Cumulative_Returns out !! 2%nat = Some c ∧ (0 < c)%R.
Proof.
  eexists _, _. split; [vm_compute; reflexivity|]. split; [reflexivity|].
  eapply (cumulative_returns_positive samples.two_portfolios
            samples.overlapping_schedule samples.three_days).
  - vm_compute; reflexivity.
  - cbn. repeat (apply Forall_cons_2; [lra|]). apply Forall_nil_2.
  - cbn. do 2 right. left.
Defined.

(** ** Label slices *)

Lemma filter_none {A} (P : A → Prop) `{!∀ x, Decision (P x)} (l : list A) :
  (∀ x, x ∈ l → ¬ P x) → filter P l = [].
Proof.
  induction l as [|x l IH]; intros Hn; [done|].
  rewrite filter_cons_False by (apply Hn; left).
  apply IH. intros y Hy. apply Hn. by right.
Qed.

Lemma islice_filter (rs : list (Z * list (option R))) a b :
  is_monotonic_increasing (rs.*1) = true →
  islice (searchsorted (rs.*1) a side_left) (searchsorted (rs.*1) b side_right) rs
  = filter (λ r, a ≤ r.1 ≤ b)%Z rs.
Proof.
  induction rs as [|[d cells] rs IH]; intros Hm; [done|].
  cbn [fmap list_fmap fst] in *.
  apply monotonic_increasing_cons in Hm as [Hm Hall].
  specialize (IH Hm). cbn [searchsorted].
  assert (∀ r, r ∈ rs → d ≤ r.1)%Z as Hge.
  { intros r Hr. apply Hall. apply list_elem_of_fmap. by exists r. }
  destruct (Z.ltb_spec d a) as [Hlt|Hnlt], (Z.leb_spec d b) as [Hle|Hnle].
  - rewrite filter_cons_False by (cbn; lia). rewrite <- IH. done.
  - rewrite filter_cons_False by (cbn; lia).
    rewrite filter_none; [done|]. intros r Hr. specialize (Hge r Hr). lia.
  - rewrite filter_cons_True by (cbn; lia). rewrite <- IH.
    assert (searchsorted (rs.*1) a side_left = 0) as ->.
    { destruct rs as [|[d' c'] rs']; [done|]. cbn.
      destruct (Z.ltb_spec d' a) as [?|_]; [|done].
      specialize (Hge (d', c') ltac:(left)). cbn in Hge. lia. }
    unfold islice. cbn. by rewrite !Nat.sub_0_r.
  - rewrite filter_cons_False by (cbn; lia).
    rewrite filter_none; [done|]. intros r Hr. specialize (Hge r Hr). lia.
Qed.

(** X10.  On a table in date order the label slice [df.loc[a:b]] never
    fails and keeps exactly the rows dated from [a] to [b], both ends
    included, whether or not the two dates occur in the table. *)
Theorem loc_slice_is_inclusive_filter df a b :
  is_monotonic_increasing (index df) = true →
  loc_slice df a b
  = Returned {| columns := columns df;
                rows := filter (λ r, a ≤ r.1 ≤ b)%Z (rows df) |}.
Proof.
  intros Hm. unfold loc_slice. rewrite (slice_locs_monotonic _ _ _ Hm).
  cbn [outcome_bind]. unfold index in *. by rewrite islice_filter.
Qed.

Lemma loc_slice_is_inclusive_filter_witness :
  loc_slice samples.three_days 11 20
  = Returned {| columns := columns samples.three_days;
                rows := filter (λ r, 11 ≤ r.1 ≤ 20)%Z (rows samples.three_days) |}.
Proof. apply (loc_slice_is_inclusive_filter samples.three_days 11 20). reflexivity. Defined.

(** ** Further properties of the optimizer *)

Local Open Scope R_scope.

Lemma complete_spec r :
  complete r ↔ ∃ ret beta sector turnover,
    raw_CUST_TRR_RETURN_HOLDING_PER r = Some ret ∧
    raw_BETA_RAW_OVERRIDABLE r = Some beta ∧
    raw_GICS_SECTOR_NAME r = Some sector ∧
    raw_TURNOVER r = Some turnover.
Proof.
  unfold complete. rewrite bool_decide_spec. unfold is_Some. split.
  - intros ([ret ?] & [beta ?] & [sector ?] & [turnover ?]).
    by exists ret, beta, sector, turnover.
  - intros (ret & beta & sector & turnover & ? & ? & ? & ?). eauto 10.
Qed.

Lemma dropna_tickers data :
  map ticker (dropna data) = map raw_ticker (filter (λ r, complete r) data).
Proof.
  unfold dropna. induction data as [|r data IH]; [done|].
  cbn [omap list_omap].
  destruct (decide (complete r)) as [Hc|Hc].
  - rewrite filter_cons_True by done.
    apply complete_spec in Hc as (ret & beta & sector & turnover & E1 & E2 & E3 & E4).
    rewrite E1, E2, E3, E4. cbn. by rewrite <- IH.
  - rewrite filter_cons_False by done.
    destruct (raw_CUST_TRR_RETURN_HOLDING_PER r) as [ret|] eqn:E1; [|exact IH].
    destruct (raw_BETA_RAW_OVERRIDABLE r) as [beta|] eqn:E2; [|exact IH].
    destruct (raw_GICS_SECTOR_NAME r) as [sector|] eqn:E3; [|exact IH].
    destruct (raw_TURNOVER r) as [turnover|] eqn:E4; [|exact IH].
    exfalso. apply Hc, complete_spec. eauto 10.
Qed.

Lemma asset_zip (data : list Asset) (ws : list R) :
  length ws = length data →
  map asset (zip_with (λ a w, {| asset := a; Optimized_Weight := w |}) data ws) = data.
Proof.
  revert ws. induction data as [|a data IH]; intros [|w ws] Hl; try done.
  simpl in *. f_equal. apply IH. lia.
Qed.

(** X11.  The table [optimize_portfolio] returns has one row for each input
    row that has all four required fields, in the input's order and with the
    input's values; rows missing a field are dropped, not defaulted. *)
Theorem returned_rows_are_the_complete_rows solver data br sr mw log pf v :
  optimize_portfolio solver data br sr mw log = Returned (pf, v) →
  map asset pf = dropna data ∧
  map (λ row, ticker (asset row)) pf = map raw_ticker (filter (λ r, complete r) data) ∧
  ∀ a, a ∈ map asset pf →
    ∃ r, r ∈ data ∧ raw_ticker r = ticker a ∧
         raw_CUST_TRR_RETURN_HOLDING_PER r = Some (CUST_TRR_RETURN_HOLDING_PER a) ∧
         raw_BETA_RAW_OVERRIDABLE r = Some (BETA_RAW_OVERRIDABLE a) ∧
         raw_GICS_SECTOR_NAME r = Some (GICS_SECTOR_NAME a) ∧
         raw_TURNOVER r = Some (TURNOVER a).
Proof.
  intros Hrun. apply optimize_portfolio_Returned in Hrun as (_ & -> & _).
  rewrite asset_zip by apply weights_length.
  split; [done|]. split.
  - by rewrite <- dropna_tickers, <- map_map, asset_zip by apply weights_length.
  - intros a Ha. unfold dropna in Ha. apply list_elem_of_omap in Ha as (r & Hr & Hsome).
    exists r. split; [done|].
    destruct r as [t [ret|] [beta|] [sector|] [turn|]]; cbn in Hsome; try done.
    by inversion Hsome.
Qed.

Lemma returned_rows_are_the_complete_rows_witness :
  ∃ pf v,
    optimize_portfolio (samples.answering samples.long_first_short_second)
      samples.pair_universe (-1/100, 1/100) (-1/100, 1/100) 1 false = Returned (pf, v) ∧
    map (λ row, ticker (asset row)) pf = ["A"; "B"].
Proof.
  eexists _, _. split; [apply pair_universe_long_short|].
  destruct (returned_rows_are_the_complete_rows
              (samples.answering samples.long_first_short_second)
              samples.pair_universe (-1/100, 1/100) (-1/100, 1/100) 1 false _ _
              (pair_universe_long_short _ _ _))
    as (_ & H & _).
  exact H.
Defined.

Lemma Rsum_map_plus {A} (f g : A → R) l :
  Rsum (map (λ x, f x + g x) l) = Rsum (map f l) + Rsum (map g l).
Proof. induction l as [|x l IH]; simpl; [lra|]. rewrite IH. lra. Qed.

Lemma Rsum_map_scale {A} (c : R) (f : A → R) l :
  Rsum (map (λ x, c * f x) l) = c * Rsum (map f l).
Proof. induction l as [|x l IH]; simpl; [lra|]. rewrite IH. lra. Qed.

Lemma Rsum_map_le {A} (f g : A → R) l :
  (∀ x, x ∈ l → f x <= g x) → Rsum (map f l) <= Rsum (map g l).
Proof.
  induction l as [|x l IH]; intros H; simpl; [lra|].
  pose proof (H x ltac:(left)). 
  assert (Rsum (map f l) <= Rsum (map g l)) by (apply IH; intros; apply H; by right).
  lra.
Qed.

Lemma Rsum_map_const {A} (c : R) (l : list A) :
  Rsum (map (λ _, c) l) = INR (length l) * c.
Proof.
  induction l as [|x l IH]; [simpl; lra|].
  cbn [map Rsum foldr length]. fold (Rsum (map (λ _ : A, c) l)).
  rewrite IH, S_INR. lra.
Qed.

(** The two books of a feasible assignment, asset by asset. *)
Lemma feasible_books data br sr mw log s :
  feasible (formulate data br sr mw log) s →
  Rsum (array (length data) (longs_value s)) = 1 ∧
  Rsum (array (length data) (shorts_value s)) = 1 ∧
  ∀ i, (i < length data)%nat →
    (longs_value s i = 0 ∧ 0 <= shorts_value s i <= mw) ∨
    (shorts_value s i = 0 ∧ 0 <= longs_value s i <= mw).
Proof.
  intros Hf. apply feasible_formulate in Hf as (Hdom & Hl & Hs & Hlz & Hsz & _).
  split; [done|]. split; [done|]. intros i Hi. by eapply long_or_short.
Qed.

(** X12.  A returned table is dollar neutral with a gross exposure of two:
    its weights sum to 0 and their absolute values to 2. *)
Theorem returned_weights_net_zero_gross_two solver data br sr mw log pf v :
  optimize_portfolio solver data br sr mw log = Returned (pf, v) →
  feasible (formulate (dropna data) br sr mw log)
           (solver (formulate (dropna data) br sr mw log)) →
  Rsum (map Optimized_Weight pf) = 0 ∧
  Rsum (map (λ row, Rabs (Optimized_Weight row)) pf) = 2.
Proof.
  intros Hrun Hfeas.
  apply optimize_portfolio_Returned in Hrun as (_ & -> & _).
  apply feasible_books in Hfeas as (Hl & Hs & Hone).
  set (s := solver _) in *. set (n := length (dropna data)) in *.
  rewrite <- (map_map Optimized_Weight Rabs).
  rewrite Optimized_Weight_zip by apply weights_length.
  unfold weights, array in *. rewrite map_map. split.
  - rewrite (Rsum_map_ext _ (λ i, longs_value s i + -1 * shorts_value s i))
      by (intros; lra).
    rewrite Rsum_map_plus, Rsum_map_scale. lra.
  - rewrite (Rsum_map_ext _ (λ i, longs_value s i + shorts_value s i)).
    + rewrite Rsum_map_plus. lra.
    + intros i Hi. apply elem_of_seq in Hi.
      destruct (Hone i ltac:(lia)) as [[E ?]|[E ?]]; rewrite E.
      * rewrite Rabs_left1; lra.
      * rewrite Rabs_right; lra.
Qed.

Lemma returned_weights_net_zero_gross_two_witness :
  ∃ pf v,
    optimize_portfolio (samples.answering samples.long_first_short_second)
      samples.pair_universe (-1/100, 1/100) (-1/100, 1/100) 1 false = Returned (pf, v) ∧
    Rsum (map Optimized_Weight pf) = 0 ∧
    Rsum (map (λ row, Rabs (Optimized_Weight row)) pf) = 2.
Proof.
  eexists _, _. split; [apply pair_universe_long_short|].
  eapply (returned_weights_net_zero_gross_two
            (samples.answering samples.long_first_short_second)
            samples.pair_universe (-1/100, 1/100) (-1/100, 1/100) 1 false).
  - apply pair_universe_long_short.
  - apply pair_universe_feasible.
Defined.

Lemma feasible_needs_two_caps data br sr mw log s :
  feasible (formulate data br sr mw log) s → 2 <= INR (length data) * mw.
Proof.
  intros Hf. apply feasible_books in Hf as (Hl & Hs & Hone).
  unfold array in *.
  replace (INR (length data) * mw)
    with (Rsum (map (λ _ : nat, mw) (seq 0 (length data))))
    by (by rewrite Rsum_map_const, length_seq).
  replace 2 with (Rsum (map (λ i, longs_value s i + shorts_value s i)
                            (seq 0 (length data))))
    by (rewrite Rsum_map_plus; lra).
  apply Rsum_map_le. intros i Hi. apply elem_of_seq in Hi.
  destruct (Hone i ltac:(lia)) as [[E ?]|[E ?]]; lra.
Qed.



Lemma Rsum_cons x l : Rsum (x :: l) = x + Rsum l.
Proof. reflexivity. Qed.

Lemma indicator_sum (ss : list string) (c : string) :
  NoDup ss → c ∈ ss →
  Rsum (map (λ s, if decide (c = s) then 1 else 0) ss) = 1.
Proof.
  induction ss as [|s ss IH]; intros Hnd Hin; [by apply elem_of_nil in Hin|].
  apply NoDup_cons in Hnd as [Hs Hnd]. cbn [map]. rewrite Rsum_cons.
  destruct (decide (c = s)) as [->|Hne].
  - rewrite Rsum_map_zero; [lra|]. intros s' Hs'.
    destruct (decide (s = s')) as [->|_]; [done|done].
  - apply elem_of_cons in Hin as [?|Hin]; [done|]. rewrite IH by done. lra.
Qed.

(** The sector exposures of an array of weights add up to the sum of the
    weights: the indicator columns partition the assets. *)
Lemma sector_exposures_partition (data : list Asset) (ws : list R) :
  length ws = length data →
  Rsum (map (λ col : string * list R, dotR col.2 ws) (sector_dummies data)) = Rsum ws.
Proof.
  unfold sector_dummies. rewrite map_map. cbn [snd].
  assert (∀ ss, NoDup ss → (∀ a, a ∈ data → GICS_SECTOR_NAME a ∈ ss) →
            length ws = length data →
            Rsum (map (λ s, dotR (map (λ a, if decide (GICS_SECTOR_NAME a = s)
                                              then 1 else 0) data) ws) ss)
            = Rsum ws) as Hgen.
  { intros ss Hnd. revert ws. induction data as [|a data IH]; intros ws Hall Hlen.
    - destruct ws; [|done]. cbn. apply Rsum_map_zero. done.
    - destruct ws as [|w ws]; [done|]. cbn in Hlen.
      unfold dotR in *. cbn [map zip_with].
      rewrite (Rsum_map_ext _ (λ s,
                 (if decide (GICS_SECTOR_NAME a = s) then 1 else 0) * w
                 + Rsum (zip_with Rmult
                           (map (λ a0, if decide (GICS_SECTOR_NAME a0 = s)
                                       then 1 else 0) data) ws)))
        by (intros; apply Rsum_cons).
      rewrite (Rsum_map_plus
                 (λ s, (if decide (GICS_SECTOR_NAME a = s) then 1 else 0) * w)).
      rewrite (Rsum_map_ext _ (λ s, w * (if decide (GICS_SECTOR_NAME a = s)
                                           then 1 else 0)))
        by (intros; lra).
      rewrite Rsum_map_scale, indicator_sum by (first [done|apply Hall; left]).
      rewrite Rsum_cons, (IH ws); [lra| |lia].
      intros a' Ha'. apply Hall. by right. }
  intros Hlen. apply Hgen; [apply NoDup_remove_dups| |done].
  intros a Ha. apply elem_of_remove_dups, list_elem_of_fmap. by exists a.
Qed.

(** X14.  The net sector exposures of a dollar-neutral book add up to zero,
    so the optimization can succeed only when [sector_exposure_target]
    contains 0: a range lying on one side of zero is infeasible whatever the
    universe. *)
Theorem sector_range_must_contain_zero solver data br sr mw log pf v :
  optimize_portfolio solver data br sr mw log = Returned (pf, v) →
  feasible (formulate (dropna data) br sr mw log)
           (solver (formulate (dropna data) br sr mw log)) →
  sr.1 <= 0 <= sr.2.
Proof.
  intros Hrun Hfeas.
  pose proof Hfeas as Hcaps. apply feasible_needs_two_caps in Hcaps.
  pose proof Hfeas as Hbooks. apply feasible_books in Hbooks as (Hl & Hs & _).
  apply feasible_formulate in Hfeas as (_ & _ & _ & _ & _ & _ & Hsec).
  set (s := solver _) in *. set (n := length (dropna data)) in *.
  pose proof (sector_exposures_partition (dropna data) (weights n s)
                (weights_length n s)) as Hpart.
  assert (Rsum (weights n s) = 0) as Hzero.
  { unfold weights, array in *.
    rewrite (Rsum_map_ext _ (λ i, longs_value s i + -1 * shorts_value s i))
      by (intros; lra).
    rewrite Rsum_map_plus, Rsum_map_scale. lra. }
  rewrite Hzero in Hpart.
  assert (sector_dummies (dropna data) ≠ []) as Hne.
  { unfold sector_dummies. destruct (dropna data) as [|a l] eqn:E.
    - subst n. cbn in Hcaps. lra.
    - intros Hnil. apply fmap_nil_inv in Hnil.
      assert (GICS_SECTOR_NAME a ∈ remove_dups (map GICS_SECTOR_NAME (a :: l))) as Hin
        by (apply elem_of_remove_dups; left).
      rewrite Hnil in Hin. by apply elem_of_nil in Hin. }
  assert (Rsum (map (λ _ : string * list R, sr.1) (sector_dummies (dropna data))) <= 0
          <= Rsum (map (λ _ : string * list R, sr.2) (sector_dummies (dropna data))))
    as [Hlo Hhi].
  { rewrite <- Hpart. split; apply Rsum_map_le; intros col Hcol;
      specialize (Hsec col Hcol); lra. }
  rewrite Rsum_map_const in Hlo, Hhi.
  assert (0 < INR (length (sector_dummies (dropna data)))) as Hk.
  { apply lt_0_INR. destruct (sector_dummies (dropna data)); [done|cbn; lia]. }
  split; nra.
Qed.

Lemma sector_range_must_contain_zero_witness :
  (-1/100, 1/100).1 <= 0 <= (-1/100, 1/100).2.
Proof.
  eapply (sector_range_must_contain_zero
            (samples.answering samples.long_first_short_second)
            samples.pair_universe (-1/100, 1/100) (-1/100, 1/100) 1 false).
  - apply pair_universe_long_short.
  - apply pair_universe_feasible.
Defined.

(** The two books of a returned table: its positive weights are the long
    values, its negative weights the short values. *)
Lemma returned_table_books solver data br sr mw log pf v :
  optimize_portfolio solver data br sr mw log = Returned (pf, v) →
  feasible (formulate (dropna data) br sr mw log)
           (solver (formulate (dropna data) br sr mw log)) →
  positive_sum (map Optimized_Weight pf) = 1 ∧
  negative_sum (map Optimized_Weight pf) = -1.
Proof.
  intros Hrun Hfeas.
  apply optimize_portfolio_Returned in Hrun as (_ & -> & _).
  apply feasible_books in Hfeas as (Hl & Hs & Hone).
  set (s := solver _) in *. set (n := length (dropna data)) in *.
  rewrite Optimized_Weight_zip by apply weights_length.
  unfold positive_sum, negative_sum, weights, array in *. rewrite !map_map.
  split.
  - rewrite <- Hl. apply Rsum_map_ext. intros i Hi. apply elem_of_seq in Hi.
    destruct (Hone i ltac:(lia)) as [[? ?]|[? ?]]; destruct (Rlt_dec _ _); lra.
  - transitivity (- Rsum (map (shorts_value s) (seq 0 n))); [|lra].
    rewrite <- Rsum_map_opp. apply Rsum_map_ext. intros i Hi. apply elem_of_seq in Hi.
    destruct (Hone i ltac:(lia)) as [[? ?]|[? ?]]; destruct (Rlt_dec _ _); lra.
Qed.

Lemma dot_product_bounds (pf : list PortfolioRow) cols cells lo hi :
  (∀ row, row ∈ pf →
     lo <= default 0 (cell_at cols cells (ticker (asset row))) <= hi) →
  lo * positive_sum (map Optimized_Weight pf)
    + hi * negative_sum (map Optimized_Weight pf)
  <= dot_product (weight_series pf) cols cells
  <= hi * positive_sum (map Optimized_Weight pf)
    + lo * negative_sum (map Optimized_Weight pf).
Proof.
  unfold dot_product, weight_series, positive_sum, negative_sum.
  rewrite !map_map. cbn [fst snd].
  induction pf as [|row pf IH]; intros Hall.
  - cbn. lra.
  - cbn [map]. rewrite !Rsum_cons.
    pose proof (Hall row ltac:(left)) as Hr.
    assert (∀ row, row ∈ pf →
              lo <= default 0 (cell_at cols cells (ticker (asset row))) <= hi) as Hrest
      by (intros; apply Hall; by right).
    specialize (IH Hrest).
    revert IH Hr.
    generalize (default 0 (cell_at cols cells (ticker (asset row)))).
    generalize (Optimized_Weight row).
    generalize (Rsum (map (λ x, if Rlt_dec 0 (Optimized_Weight x)
                                then Optimized_Weight x else 0) pf)).
    generalize (Rsum (map (λ x, if Rlt_dec (Optimized_Weight x) 0
                                then Optimized_Weight x else 0) pf)).
    generalize (Rsum (map (λ x, Optimized_Weight x
                                * default 0 (cell_at cols cells (ticker (asset x)))) pf)).
    intros D N P w r IH Hr.
    assert (0 <= w → lo * w <= w * r <= hi * w) as Hpos by (intros; nra).
    assert (w <= 0 → hi * w <= w * r <= lo * w) as Hneg by (intros; nra).
    destruct (Rlt_dec 0 w), (Rlt_dec w 0); [lra| | |].
    + specialize (Hpos ltac:(lra)). lra.
    + specialize (Hneg ltac:(lra)). lra.
    + assert (w = 0) as -> by lra. lra.
Qed.

(** X15.  The daily return of a returned table is bounded by the spread of
    that day's asset returns: when every asset of the table returns between
    [lo] and [hi] (a missing return counting as 0), the dot product lies
    between [lo - hi] and [hi - lo]; in particular it is 0 when all assets
    return the same. *)
Theorem portfolio_return_within_spread solver data br sr mw log pf v cols cells lo hi :
  optimize_portfolio solver data br sr mw log = Returned (pf, v) →
  feasible (formulate (dropna data) br sr mw log)
           (solver (formulate (dropna data) br sr mw log)) →
  (∀ row, row ∈ pf →
     lo <= default 0 (cell_at cols cells (ticker (asset row))) <= hi) →
  lo - hi <= dot_product (weight_series pf) cols cells <= hi - lo.
Proof.
  intros Hrun Hfeas Hall.
  destruct (returned_table_books _ _ _ _ _ _ _ _ Hrun Hfeas) as [Hp Hn].
  pose proof (dot_product_bounds pf cols cells lo hi Hall) as Hb.
  rewrite Hp, Hn in Hb. lra.
Qed.

Lemma portfolio_return_within_spread_witness :
  ∃ pf v,
    optimize_portfolio (samples.answering samples.long_first_short_second)
      samples.pair_universe (-1/100, 1/100) (-1/100, 1/100) 1 false = Returned (pf, v) ∧
    0 - 1 <= dot_product (weight_series pf) ["A"] [Some 1] <= 1 - 0.
Proof.
  eexists _, _. split; [apply pair_universe_long_short|].
  eapply (portfolio_return_within_spread
            (samples.answering samples.long_first_short_second)
            samples.pair_universe (-1/100, 1/100) (-1/100, 1/100) 1 false).
  - apply pair_universe_long_short.
  - apply pair_universe_feasible.
  - intros row Hrow. cbn in Hrow.
    repeat (apply elem_of_cons in Hrow as [->|Hrow]; [vm_compute; lra|]).
    by apply elem_of_nil in Hrow.
Defined.

(** *** The signal and its standardisation *)

Lemma ln_zero_iff t : 0 < t → ln t = 0 ↔ t = 1.
Proof.
  intros Ht. split.
  - intros H. apply ln_inv; [done|lra|]. by rewrite ln_1.
  - intros ->. apply ln_1.
Qed.

(** X16.  The signal of an asset is its holding-period return divided by its
    turnover, or by the natural logarithm of its turnover when [log] is set;
    it is NaN exactly when the turnover is 0 or, with [log], when the
    turnover is not positive or equals 1 (whose logarithm is 0). *)
Theorem signal_defined_iff log a :
  match SIGNAL log a with
  | Some x =>
      TURNOVER a ≠ 0 ∧ (log = false ∨ (0 < TURNOVER a ∧ TURNOVER a ≠ 1)) ∧
      x = CUST_TRR_RETURN_HOLDING_PER a / (if log then ln (TURNOVER a) else TURNOVER a)
  | None =>
      TURNOVER a = 0 ∨ (log = true ∧ (TURNOVER a <= 0 ∨ TURNOVER a = 1))
  end.
Proof.
  unfold SIGNAL, LOG_ADV, replace_zero, np_log, nan_div.
  destruct log.
  - destruct (Req_dec_T (TURNOVER a) 0) as [E|Hne]; [by left|].
    destruct (Rlt_dec 0 (TURNOVER a)) as [Hpos|Hnpos]; [|right; split; [done|left; lra]].
    destruct (Req_dec_T (ln (TURNOVER a)) 0) as [Hln|Hln].
    + right. split; [done|]. right. by apply ln_zero_iff.
    + destruct (Req_dec_T (ln (TURNOVER a)) 0) as [|_]; [done|].
      split; [done|]. split; [|done]. right. split; [done|].
      intros E. apply Hln. by apply ln_zero_iff.
  - destruct (Req_dec_T (TURNOVER a) 0) as [E|Hne]; [by left|].
    destruct (Req_dec_T (TURNOVER a) 0) as [|_]; [done|].
    destruct (Req_dec_T (TURNOVER a) 0) as [|_]; [done|].
    split; [done|]. split; [by left|done].
Qed.

Lemma Z_SCORE_standardize log data :
  (2 ≤ length (valid (map (SIGNAL log) data)))%nat →
  sample_std (valid (map (SIGNAL log) data)) ≠ 0 →
  Z_SCORE log data = standardize sample_std (map (SIGNAL log) data).
Proof.
  intros Hn Hsd. unfold Z_SCORE, standardize. cbn zeta.
  rewrite series_std_sample by done.
  rewrite series_mean_valid by (destruct (valid _); [simpl in Hn; lia|done]).
  apply map_ext. intros [x|]; [|done]. cbn. by destruct (Req_dec_T _ _).
Qed.

Lemma valid_standardize_from sd m (col : list (option R)) :
  valid (map (λ s, match s with
                   | Some x => Some ((x - m) / sd)
                   | None => None
                   end) col)
  = map (λ x, (x - m) / sd) (valid col).
Proof.
  unfold valid. induction col as [|[x|] col IH]; cbn; [done| |done].
  by rewrite IH.
Qed.

Lemma sum_sq_dev_nonneg xs : 0 <= sum_sq_dev xs.
Proof.
  unfold sum_sq_dev. generalize (mean xs). intros m.
  induction xs as [|x xs IH]; [cbn; lra|]. cbn [map]. rewrite Rsum_cons.
  pose proof (Rle_0_sqr (x - m)) as Hsq. unfold Rsqr in Hsq. lra.
Qed.

(** X17.  When at least two signals are defined and they are not all equal,
    the z-scores that are defined have mean 0 and sample variance 1: they
    sum to 0 and their squares to the number of defined signals minus 1. *)
Theorem z_scores_are_standardised log data :
  (2 ≤ length (valid (map (SIGNAL log) data)))%nat →
  sample_std (valid (map (SIGNAL log) data)) ≠ 0 →
  length (valid (Z_SCORE log data)) = length (valid (map (SIGNAL log) data)) ∧
  Rsum (valid (Z_SCORE log data)) = 0 ∧
  Rsum (map (λ z, z * z) (valid (Z_SCORE log data)))
    = INR (length (valid (map (SIGNAL log) data))) - 1.
Proof.
  intros Hn Hsd. rewrite Z_SCORE_standardize by done.
  unfold standardize. rewrite valid_standardize_from.
  set (xs := valid (map (SIGNAL log) data)) in *.
  assert (0 < INR (length xs)) as Hpos by (apply lt_0_INR; lia).
  assert (1 < INR (length xs)) as Hone.
  { replace 1 with (INR 1) by done. apply lt_INR. lia. }
  split; [by rewrite length_map|]. split.
  - rewrite (Rsum_map_ext _ (λ x, / sample_std xs * x + - (mean xs / sample_std xs)))
      by (intros; field; done).
    rewrite Rsum_map_plus, Rsum_map_scale, Rsum_map_const, map_id.
    unfold mean. field. split; [lra|done].
  - rewrite map_map.
    rewrite (Rsum_map_ext _ (λ x, / (sample_std xs * sample_std xs)
                                  * ((x - mean xs) * (x - mean xs))))
      by (intros; field; done).
    rewrite Rsum_map_scale. fold (sum_sq_dev xs).
    unfold sample_std. rewrite sqrt_sqrt.
    + assert (sum_sq_dev xs ≠ 0) as Hss.
      { intros E. apply Hsd. unfold sample_std. rewrite E.
        unfold Rdiv. rewrite Rmult_0_l. apply sqrt_0. }
      field. split; [lra|done].
    + pose proof (sum_sq_dev_nonneg xs).
      apply Rmult_le_pos; [done|]. apply Rlt_le, Rinv_0_lt_compat. lra.
Qed.

Lemma z_scores_are_standardised_witness :
  Rsum (valid (Z_SCORE false (dropna samples.pair_universe))) = 0.
Proof.
  destruct (z_scores_are_standardised false (dropna samples.pair_universe))
    as (_ & H & _).
  - rewrite pair_universe_signal. cbn. lia.
  - rewrite pair_universe_signal. cbn [valid omap list_omap]. cbn.
    rewrite sample_std_0_2. pose proof Rlt_sqrt2_0. lra.
  - exact H.
Defined.

(** X18.  A universe with fewer than two defined signals cannot be
    optimised: the sample deviation of fewer than two values is NaN, so
    every z-score is NaN, and [optimize_portfolio] ends in the library's
    [ValueError] whatever the solver and the limits. *)
Theorem fewer_than_two_signals_cannot_be_optimised solver data br sr mw log :
  (length (valid (map (SIGNAL log) (dropna data))) < 2)%nat →
  Z_SCORE log (dropna data) = map (λ _, None) (dropna data) ∧
  optimize_portfolio solver data br sr mw log = Raised LibraryValueError.
Proof.
  intros Hn. split; [by apply Z_SCORE_few|].
  by apply optimize_portfolio_rejected, few_signals_rejected.
Qed.

Lemma fewer_than_two_signals_cannot_be_optimised_witness :
  Z_SCORE false (dropna samples.lone_asset) = [None] ∧
  optimize_portfolio (samples.answering samples.long_first_short_second)
    samples.lone_asset (-1/100, 1/100) (-1/100, 1/100) 1 false
  = Raised LibraryValueError.
Proof.
  apply (fewer_than_two_signals_cannot_be_optimised
           (samples.answering samples.long_first_short_second)
           samples.lone_asset (-1/100, 1/100) (-1/100, 1/100) 1 false).
  pose proof (valid_length (map (SIGNAL false) (dropna samples.lone_asset))) as Hle.
  rewrite length_map in Hle.
  assert (length (dropna samples.lone_asset) = 1%nat) by reflexivity. lia.
Defined.

Lemma undefined_signal_rejected data br sr mw log a :
  a ∈ data → SIGNAL log a = None → ¬ accepted (formulate data br sr mw log).
Proof.
  intros Hin Hsig [_ Hobj]. cbn [formulate objective] in Hobj.
  unfold Z_SCORE in Hobj. cbn zeta in Hobj.
  rewrite Forall_forall in Hobj.
  destruct (Hobj (nan_div (nan_sub (SIGNAL log a)
                             (series_mean (map (SIGNAL log) data)))
                          (series_std (map (SIGNAL log) data)))) as [z Hz].
  - apply list_elem_of_fmap. exists (SIGNAL log a). split; [done|].
    apply list_elem_of_fmap. by exists a.
  - by rewrite Hsig in Hz.
Qed.

(** X27.  One asset with all four fields but an undefined signal (a
    turnover of 0, or with [log] a turnover that is not positive or equals
    1) stops the optimization of its whole universe: its z-score is NaN, and
    [optimize_portfolio] ends in the library's [ValueError] whatever the
    solver and the limits. *)
Theorem undefined_signal_stops_the_optimizer solver data br sr mw log a :
  a ∈ dropna data →
  SIGNAL log a = None →
  optimize_portfolio solver data br sr mw log = Raised LibraryValueError.
Proof.
  intros Hin Hsig. eapply optimize_portfolio_rejected, undefined_signal_rejected; done.
Qed.

Lemma undefined_signal_stops_the_optimizer_witness :
  optimize_portfolio (samples.answering samples.long_first_short_second)
    samples.untraded_third (-1/100, 1/100) (-1/100, 1/100) 1 false
  = Raised LibraryValueError.
Proof.
  apply (undefined_signal_stops_the_optimizer
           (samples.answering samples.long_first_short_second)
           samples.untraded_third (-1/100, 1/100) (-1/100, 1/100) 1 false
           {| ticker := "C"; CUST_TRR_RETURN_HOLDING_PER := 1;
              BETA_RAW_OVERRIDABLE := 1; GICS_SECTOR_NAME := "Energy";
              TURNOVER := 0 |}).
  - cbn. set_solver.
  - unfold SIGNAL, LOG_ADV. cbn.
    destruct (Req_dec_T 0 0) as [_|?]; [reflexivity|lra].
Defined.

Local Close Scope R_scope.

(** ** Further properties of the runner *)

Section runner_more.

Variable solver : Problem → Solution.

Lemma friday_of_Returned table key :
  (∃ d, friday_of (Some table) key = Returned d) ↔
  key ∈ map Third_to_Last_Thursday table.
Proof.
  split.
  - intros [d Hd]. destruct (decide (key ∈ map Third_to_Last_Thursday table)); [done|].
    by rewrite friday_of_absent in Hd.
  - intros Hin. apply friday_of_present in Hin as (r & _ & _ & ->). by eexists.
Qed.

Lemma create_portfolios_loop_returns sched items br sr mw log portfolios sols :
  (∃ r, create_portfolios_loop solver sched items br sr mw log portfolios sols
        = Returned r) ↔
  ∀ key data, (key, data) ∈ items → ∃ d, friday_of sched key = Returned d.
Proof.
  revert portfolios sols. induction items as [|[key data] items IH];
    intros portfolios sols.
  - split; [|by eexists]. intros _ key data Hin. by apply elem_of_nil in Hin.
  - cbn [create_portfolios_loop].
    destruct (friday_of sched key) as [date|e] eqn:Hdate; cbn [outcome_bind].
    + destruct (optimize_portfolio solver data br sr mw log) as [[pf v]|e];
        rewrite IH; split.
      * intros H k dt Hin. apply elem_of_cons in Hin as [Heq|Hin]; [|by eapply H].
        inversion Heq; subst. by eexists.
      * intros H k dt Hin. apply (H k dt). by right.
      * intros H k dt Hin. apply elem_of_cons in Hin as [Heq|Hin]; [|by eapply H].
        inversion Heq; subst. by eexists.
      * intros H k dt Hin. apply (H k dt). by right.
    + split; [by intros [r ?]|]. intros H.
      destruct (H key data ltac:(left)) as [d Hd]. congruence.
Qed.

(** X19.  [create_portfolios] returns exactly when the runner has
    constituent data and a schedule with a row for the snapshot date of
    every universe; whether the optimizations succeed plays no part, a
    failed date being skipped without stopping the run. *)
Theorem create_portfolios_returns_iff self br sr mw log :
  (∃ self', create_portfolios solver self br sr mw log = Returned self') ↔
  constituent_data self ≠ [] ∧
  ∃ table, schedule self = Some table ∧
    ∀ key data, (key, data) ∈ constituent_data self →
                key ∈ map Third_to_Last_Thursday table.
Proof.
  unfold create_portfolios.
  destruct (constituent_data self) as [|item items] eqn:Hcd.
  - split; [by intros [? ?]|by intros [? _]].
  - destruct (create_portfolios_loop solver (schedule self) (item :: items)
                br sr mw log (optimized_portfolios self) (solutions self))
      as [[p s]|e] eqn:Hloop; cbn [outcome_bind].
    + split; [|by eexists]. intros _. split; [done|].
      assert (∃ r, create_portfolios_loop solver (schedule self) (item :: items)
                     br sr mw log (optimized_portfolios self) (solutions self)
                   = Returned r) as Hr by (by eexists).
      pose proof (proj1 (create_portfolios_loop_returns _ _ _ _ _ _ _ _) Hr) as Hr'.
      clear Hr. rename Hr' into Hr.
      destruct (schedule self) as [table|].
      * exists table. split; [done|]. intros key data Hin.
        apply friday_of_Returned. by eapply Hr.
      * destruct item as [key data].
        destruct (Hr key data ltac:(left)) as [d Hd]. done.
    + split; [by intros [? ?]|]. intros (_ & table & Htable & Hall). exfalso.
      assert (∃ r, create_portfolios_loop solver (schedule self) (item :: items)
                     br sr mw log (optimized_portfolios self) (solutions self)
                   = Returned r) as [r Hr].
      { apply (proj2 (create_portfolios_loop_returns _ _ _ _ _ _ _ _)).
        intros key data Hin.
        rewrite Htable. apply friday_of_Returned. by eapply Hall. }
      congruence.
Qed.

Lemma create_portfolios_loop_doms sched items br sr mw log portfolios sols portfolios' sols' :
  create_portfolios_loop solver sched items br sr mw log portfolios sols
    = Returned (portfolios', sols') →
  dom sols = dom portfolios → dom sols' = dom portfolios'.
Proof.
  revert portfolios sols. induction items as [|[key data] items IH];
    intros portfolios sols Hrun Hdom.
  - by inversion Hrun; subst.
  - cbn [create_portfolios_loop] in Hrun.
    destruct (friday_of sched key) as [date|]; [|done]. cbn [outcome_bind] in Hrun.
    destruct (optimize_portfolio solver data br sr mw log) as [[pf v]|e].
    + apply IH in Hrun; [done|]. by rewrite !dom_insert_L, Hdom.
    + by apply IH in Hrun.
Qed.

Lemma create_portfolios_loop_untouched sched items br sr mw log portfolios sols
    portfolios' sols' d :
  create_portfolios_loop solver sched items br sr mw log portfolios sols
    = Returned (portfolios', sols') →
  (∀ key data, (key, data) ∈ items → friday_of sched key = Returned d →
     ∃ e, optimize_portfolio solver data br sr mw log = Raised e) →
  portfolios' !! d = portfolios !! d ∧ sols' !! d = sols !! d.
Proof.
  revert portfolios sols. induction items as [|[key data] items IH];
    intros portfolios sols Hrun Hfail.
  - by inversion Hrun; subst.
  - cbn [create_portfolios_loop] in Hrun.
    destruct (friday_of sched key) as [date|] eqn:Hdate; [|done].
    cbn [outcome_bind] in Hrun.
    assert (∀ key data, (key, data) ∈ items → friday_of sched key = Returned d →
              ∃ e, optimize_portfolio solver data br sr mw log = Raised e) as Hrest
      by (intros k dt Hin; apply Hfail; by right).
    destruct (optimize_portfolio solver data br sr mw log) as [[pf v]|e] eqn:Hopt.
    + destruct (IH _ _ Hrun Hrest) as [-> ->].
      assert (date ≠ d) as Hne.
      { intros ->. destruct (Hfail key data ltac:(left) Hdate) as [e He]. congruence. }
      by rewrite !lookup_insert_ne.
    + by apply IH.
Qed.

Lemma create_portfolios_loop_latest sched before key data after br sr mw log
    portfolios sols portfolios' sols' d pf v :
  create_portfolios_loop solver sched (before ++ (key, data) :: after) br sr mw log
    portfolios sols = Returned (portfolios', sols') →
  friday_of sched key = Returned d →
  optimize_portfolio solver data br sr mw log = Returned (pf, v) →
  (∀ key' data', (key', data') ∈ after → friday_of sched key' = Returned d →
     ∃ e, optimize_portfolio solver data' br sr mw log = Raised e) →
  portfolios' !! d = Some pf ∧ sols' !! d = Some v.
Proof.
  revert portfolios sols. induction before as [|[k dt] before IH];
    intros portfolios sols Hrun Hdate Hopt Hfail.
  - cbn [app create_portfolios_loop] in Hrun. rewrite Hdate in Hrun.
    cbn [outcome_bind] in Hrun. rewrite Hopt in Hrun.
    destruct (create_portfolios_loop_untouched _ _ _ _ _ _ _ _ _ _ d Hrun Hfail)
      as [-> ->].
    by rewrite !lookup_insert_eq.
  - cbn [app create_portfolios_loop] in Hrun.
    destruct (friday_of sched k) as [date|]; [|done]. cbn [outcome_bind] in Hrun.
    destruct (optimize_portfolio solver dt br sr mw log) as [[pf0 v0]|e];
      by eapply IH.
Qed.

Lemma create_portfolios_loop_of self br sr mw log self1 :
  create_portfolios solver self br sr mw log = Returned self1 →
  create_portfolios_loop solver (schedule self) (constituent_data self)
    br sr mw log (optimized_portfolios self) (solutions self)
  = Returned (optimized_portfolios self1, solutions self1).
Proof.
  unfold create_portfolios. intros H.
  destruct (constituent_data self) as [|item items] eqn:Hcd; [done|].
  destruct (create_portfolios_loop _ _ _ _ _ _ _ _ _) as [[p sols]|]; [|done].
  by inversion H; subst.
Qed.

(** X20.  [create_portfolios] assigns a date's table and its objective value
    together: when the two dictionaries hold the same dates before the call
    they hold the same dates after it. *)
Theorem create_portfolios_keeps_solutions_in_step self br sr mw log self1 :
  create_portfolios solver self br sr mw log = Returned self1 →
  dom (solutions self) = dom (optimized_portfolios self) →
  dom (solutions self1) = dom (optimized_portfolios self1).
Proof.
  intros Hrun. apply create_portfolios_loop_of in Hrun.
  by eapply create_portfolios_loop_doms.
Qed.

(** X21.  After [create_portfolios] the entry of a rebalance date is the
    table, and the objective value, of the last universe in iteration order
    whose snapshot maps to that date and whose optimization succeeded. *)
Theorem create_portfolios_stores_latest_success self br sr mw log self1
    before key data after d pf v :
  create_portfolios solver self br sr mw log = Returned self1 →
  constituent_data self = before ++ (key, data) :: after →
  friday_of (schedule self) key = Returned d →
  optimize_portfolio solver data br sr mw log = Returned (pf, v) →
  (∀ key' data', (key', data') ∈ after →
     friday_of (schedule self) key' = Returned d →
     ∃ e, optimize_portfolio solver data' br sr mw log = Raised e) →
  optimized_portfolios self1 !! d = Some pf ∧ solutions self1 !! d = Some v.
Proof.
  intros Hrun Hcd Hdate Hopt Hfail. apply create_portfolios_loop_of in Hrun.
  rewrite Hcd in Hrun. by eapply create_portfolios_loop_latest.
Qed.

End runner_more.

Lemma create_portfolios_returns_iff_witness :
  ∃ self', create_portfolios (samples.answering samples.no_solution) samples.mid_sweep
             (-1/100, 1/100)%R (-1/100, 1/100)%R 1%R false = Returned self'.
Proof.
  apply (create_portfolios_returns_iff (samples.answering samples.no_solution)
           samples.mid_sweep (-1/100, 1/100)%R (-1/100, 1/100)%R 1%R false).
  split; [done|]. exists samples.long_schedule. split; [done|].
  intros key data Hin. cbn in Hin. apply list_elem_of_singleton in Hin.
  inversion Hin; subst. listed.
Defined.

Lemma fresh_portfolios_created :
  ∃ self1, create_portfolios samples.cap_sensitive samples.fresh
             (-1/100, 1/100)%R (-1/100, 1/100)%R 1%R false = Returned self1.
Proof.
  unfold create_portfolios.
  cbn [samples.fresh constituent_data schedule optimized_portfolios solutions
       create_portfolios_loop].
  rewrite pair_universe_full_cap. eexists. vm_compute. reflexivity.
Defined.

Lemma create_portfolios_keeps_solutions_in_step_witness :
  ∃ self1,
    create_portfolios samples.cap_sensitive samples.fresh
      (-1/100, 1/100)%R (-1/100, 1/100)%R 1%R false = Returned self1 ∧
    dom (solutions self1) = dom (optimized_portfolios self1).
Proof.
  destruct fresh_portfolios_created as [self1 Hrun].
  exists self1. split; [exact Hrun|].
  apply (create_portfolios_keeps_solutions_in_step samples.cap_sensitive samples.fresh
           (-1/100, 1/100)%R (-1/100, 1/100)%R 1%R false self1 Hrun).
  reflexivity.
Defined.

Lemma create_portfolios_stores_latest_success_witness :
  ∃ self1,
    create_portfolios samples.cap_sensitive samples.fresh
      (-1/100, 1/100)%R (-1/100, 1/100)%R 1%R false = Returned self1 ∧
    optimized_portfolios self1 !! 11%Z = Some samples.long_short_pair ∧
    solutions self1 !! 11%Z = Some (-1)%R.
Proof.
  destruct fresh_portfolios_created as [self1 Hrun].
  exists self1. split; [exact Hrun|].
  apply (create_portfolios_stores_latest_success samples.cap_sensitive samples.fresh
           (-1/100, 1/100)%R (-1/100, 1/100)%R 1%R false self1
           [] 10%Z samples.pair_universe [] 11%Z).
  - exact Hrun.
  - reflexivity.
  - reflexivity.
  - apply pair_universe_full_cap.
  - intros key' data' Hin. by apply elem_of_nil in Hin.
Defined.

Lemma run_backtest_fields self self' :
  run_backtest self = Returned self' →
  schedule self' = schedule self ∧
  constituent_data self' = constituent_data self ∧
  returns self' = returns self ∧
  optimized_portfolios self' = optimized_portfolios self ∧
  solutions self' = solutions self.
Proof.
  unfold run_backtest. intros H.
  destruct (decide (optimized_portfolios self = ∅)); [done|].
  destruct (schedule self) as [table|] eqn:Hs; [|done].
  destruct (backtest_strategy _ _ _) as [out|]; [|done].
  by inversion H; subst.
Qed.

(** X22.  [run_backtest] on a runner with at least one portfolio, a
    schedule and a return table in date order with distinct column labels,
    the portfolios having distinct tickers, never fails; it leaves the
    schedule, the data, the portfolios and the objective values as they
    were, and the two series it stores carry the table's dates. *)
Theorem run_backtest_on_ordered_table self table :
  optimized_portfolios self ≠ ∅ →
  schedule self = Some table →
  is_monotonic_increasing (index (returns self)) = true →
  NoDup (columns (returns self)) →
  (∀ d pf, optimized_portfolios self !! d = Some pf → NoDup (weight_series pf).*1) →
  ∃ self', run_backtest self = Returned self' ∧
    schedule self' = schedule self ∧
    constituent_data self' = constituent_data self ∧
    returns self' = returns self ∧
    optimized_portfolios self' = optimized_portfolios self ∧
    solutions self' = solutions self ∧
    (strategy_returns self').*1 = index (returns self) ∧
    (cumulative_strategy_returns self').*1 = index (returns self).
Proof.
  intros Hne Htable Hm _ _.
  destruct (backtest_strategy_monotonic (optimized_portfolios self) table
              (returns self) Hm) as (out & Hout & Hidx & Hlen & _).
  assert (length (index (returns self)) = length (rows (returns self))) as E
    by (unfold index; by rewrite length_fmap).
  assert (length (Cumulative_Returns out) = length (rows (returns self))) as Hclen.
  { unfold backtest_strategy in Hout.
    destruct (backtest_loop _ _ _ _) as [col|]; [|done].
    inversion Hout; subst out. cbn [Cumulative_Returns Portfolio_Returns] in *.
    by rewrite cumprod_from_one, cumprod_from_length, length_map. }
  unfold run_backtest. rewrite decide_False by done. rewrite Htable, Hout.
  cbn [outcome_bind]. eexists. split; [reflexivity|]. cbn.
  rewrite Hidx. repeat split; apply fst_zip; lia.
Qed.

Lemma run_backtest_on_ordered_table_witness :
  ∃ self', run_backtest samples.mid_sweep = Returned self' ∧
           (strategy_returns self').*1 = index samples.three_days.
Proof.
  destruct (run_backtest_on_ordered_table samples.mid_sweep samples.long_schedule)
    as (self' & Hrun & _ & _ & _ & _ & _ & Hidx & _).
  - intros H. apply (f_equal (λ m, m !! 11%Z)) in H. vm_compute in H. discriminate.
  - reflexivity.
  - reflexivity.
  - apply NoDup_singleton.
  - intros d pf H. cbn [samples.mid_sweep optimized_portfolios] in H.
    unfold samples.one_portfolio in H.
    apply lookup_insert_Some in H as [[_ <-]|[_ H]]; [apply NoDup_singleton|].
    by rewrite lookup_empty in H.
  - by exists self'.
Defined.

Lemma searchsorted_none_below idx v :
  (∀ d, d ∈ idx → (v ≤ d)%Z) → is_monotonic_increasing idx = true →
  searchsorted idx v side_left = 0.
Proof.
  intros H _. destruct idx as [|x idx]; [done|]. cbn.
  destruct (Z.ltb_spec x v) as [Hlt|_]; [|done].
  specialize (H x ltac:(left)). lia.
Qed.

Lemma searchsorted_all_below idx v :
  (∀ d, d ∈ idx → (d < v)%Z) → searchsorted idx v side_left = length idx.
Proof.
  induction idx as [|x idx IH]; intros H; [done|]. cbn.
  destruct (Z.ltb_spec x v) as [_|Hge].
  - rewrite IH; [done|]. intros d Hd. apply H. by right.
  - specialize (H x ltac:(left)). lia.
Qed.

Lemma map_snd_zip {A B C} (f : B → C) (l : list A) (k : list B) :
  length k ≤ length l → map (λ p, f p.2) (zip l k) = map f k.
Proof.
  revert l. induction k as [|y k IH]; intros [|x l] Hl; cbn in *; try done; try lia.
  f_equal. apply IH. lia.
Qed.

(** X23.  After [run_backtest] over a table in date order, the final
    cumulative return of the sweep, taken from a start date on or before the
    first table date, is the last value of the stored cumulative series; on
    an empty table it is an [IndexError]. *)
Theorem final_cumulative_from_the_start self self' start :
  run_backtest self = Returned self' →
  is_monotonic_increasing (index (returns self)) = true →
  (∀ d, d ∈ index (returns self) → (start ≤ d)%Z) →
  final_cumulative (strategy_returns self') start
  = match last (cumulative_strategy_returns self').*2 with
    | Some c => Returned c
    | None => Raised IndexError
    end.
Proof.
  intros Hrun Hm Hstart.
  apply run_backtest_Returned in Hrun as (_ & table & out & _ & Hout & -> & ->).
  destruct (backtest_strategy_monotonic (optimized_portfolios self) table
              (returns self) Hm) as (out' & Hout' & Hidx & Hlen & _).
  rewrite Hout in Hout'. inversion Hout'; subst out'.
  assert (length (index (returns self)) = length (rows (returns self))) as E
    by (unfold index; by rewrite length_fmap).
  assert (Cumulative_Returns out
          = cumprod (map (λ r, (1 + r)%R) (Portfolio_Returns out))) as Hcum.
  { unfold backtest_strategy in Hout.
    destruct (backtest_loop _ _ _ _) as [col|]; [|done]. by inversion Hout. }
  unfold final_cumulative.
  rewrite fst_zip by (rewrite Hidx; lia).
  rewrite Hidx, (get_slice_bound_monotonic _ _ _ Hm).
  rewrite searchsorted_none_below by done. cbn [outcome_bind drop].
  rewrite snd_zip
    by (rewrite Hcum, cumprod_from_one, cumprod_from_length, length_map; lia).
  rewrite drop_0, (map_snd_zip (λ r, (1 + r)%R)) by lia.
  by rewrite <- Hcum.
Qed.

Lemma final_cumulative_from_the_start_witness :
  ∃ self', run_backtest samples.mid_sweep = Returned self' ∧
    final_cumulative (strategy_returns self') 5
    = match last (cumulative_strategy_returns self').*2 with
      | Some c => Returned c
      | None => Raised IndexError
      end.
Proof.
  assert (∃ self', run_backtest samples.mid_sweep = Returned self') as [self' Hrun]
    by (eexists; vm_compute; reflexivity).
  exists self'. split; [exact Hrun|].
  apply (final_cumulative_from_the_start samples.mid_sweep self' 5 Hrun).
  - reflexivity.
  - intros d Hd. apply list_elem_of_In in Hd. vm_compute in Hd. lia.
Defined.

(** X24.  Over a series in date order, a start date later than every date of
    the series leaves nothing to compound: [final_cumulative] raises
    [IndexError], as [.iloc[-1]] does on an empty series. *)
Theorem final_cumulative_after_the_table series start :
  is_monotonic_increasing (series.*1) = true →
  (∀ d, d ∈ series.*1 → (d < start)%Z) →
  final_cumulative series start = Raised IndexError.
Proof.
  intros Hm Hall. unfold final_cumulative.
  rewrite (get_slice_bound_monotonic _ _ _ Hm), searchsorted_all_below by done.
  cbn [outcome_bind]. rewrite length_fmap, drop_all. reflexivity.
Qed.

Lemma final_cumulative_after_the_table_witness :
  final_cumulative [ (10%Z, 1%R); (11%Z, 2%R) ] 12 = Raised IndexError.
Proof.
  apply (final_cumulative_after_the_table [ (10%Z, 1%R); (11%Z, 2%R) ] 12).
  - reflexivity.
  - intros d Hd. apply list_elem_of_In in Hd. vm_compute in Hd. lia.
Defined.

(** ** The sweep of grid_search *)

Lemma bind_length_const {A B} (f : A → list B) (l : list A) k :
  (∀ x, length (f x) = k) → length (l ≫= f) = length l * k.
Proof.
  intros Hf. induction l as [|x l IH]; [done|].
  rewrite bind_cons, length_app, Hf, IH. cbn [length]. lia.
Qed.

Lemma param_combinations_length bl sl ms ls :
  length (param_combinations bl sl ms ls)
  = length bl * length sl * length ms * length ls.
Proof.
  unfold param_combinations.
  rewrite (bind_length_const _ bl (length sl * length ms * length ls)); [lia|].
  intros b. rewrite (bind_length_const _ sl (length ms * length ls)); [lia|].
  intros s. rewrite (bind_length_const _ ms (length ls)); [lia|].
  intros m. rewrite (bind_length_const _ ls 1); [lia|]. done.
Qed.

Section sweep.

Variable solver : Problem → Solution.

Lemma grid_step_fields self start c self' row :
  grid_step solver self start c = Returned (self', row) →
  grid_params row = c ∧
  schedule self' = schedule self ∧
  constituent_data self' = constituent_data self ∧
  returns self' = returns self ∧
  (∀ d, is_Some (optimized_portfolios self !! d) →
        is_Some (optimized_portfolios self' !! d)) ∧
  (∀ d, (∀ key data, (key, data) ∈ constituent_data self →
           friday_of (schedule self) key = Returned d →
           ∃ e, optimize_portfolio solver data ((- c.1.1.1)%R, c.1.1.1)
                  ((- c.1.1.2)%R, c.1.1.2) c.1.2 c.2 = Raised e) →
        optimized_portfolios self' !! d = optimized_portfolios self !! d).
Proof.
  destruct c as [[[b s] m] l]. intros H.
  assert (grid_params row = (b, s, m, l)) as Hrow.
  { unfold grid_step in H.
    destruct (create_portfolios _ _ _ _ _ _) as [self1|]; [|done]. cbn in H.
    destruct (run_backtest self1) as [self2|]; [|done]. cbn in H.
    destruct (final_cumulative _ _); [|done]. by inversion H; subst. }
  apply grid_step_Returned in H as (self1 & Hc & Hb).
  apply create_portfolios_Returned in Hc as (Hs1 & Hr1 & Hc1 & sols & Hloop).
  apply run_backtest_fields in Hb as (Hs2 & Hc2 & Hr2 & Ho2 & _).
  apply create_portfolios_loop_spec in Hloop as (Hkeep & _ & Hfail).
  rewrite Hs2, Hc2, Hr2, Ho2, Hs1, Hr1, Hc1. repeat split; try done.
Qed.

Lemma grid_search_loop_rows combos start self results self' results' :
  grid_search_loop solver combos start self results = Returned (self', results') →
  map grid_params results' = map grid_params results ++ combos.
Proof.
  revert self results. induction combos as [|c combos IH]; intros self results H.
  - inversion H; subst. by rewrite app_nil_r.
  - cbn [grid_search_loop] in H.
    destruct (grid_step solver self start c) as [[self1 row]|] eqn:Hstep; [|done].
    cbn [outcome_bind] in H. apply IH in H. rewrite H, map_app. cbn [map].
    apply grid_step_fields in Hstep as (-> & _). by rewrite <- app_assoc.
Qed.

(** X25.  A sweep that returns reports one row per combination of the four
    candidate lists, in the order of [itertools.product] (the last list
    varying fastest), each row carrying its combination's parameters. *)
Theorem grid_search_rows self bl sl ms ls start self' results :
  grid_search solver self bl sl ms ls start = Returned (self', results) →
  map grid_params results = param_combinations bl sl ms ls ∧
  length results = length bl * length sl * length ms * length ls.
Proof.
  intros H. apply grid_search_loop_rows in H. cbn [map app] in H.
  split; [done|]. by rewrite <- (length_map grid_params), H, param_combinations_length.
Qed.

Lemma grid_search_loop_keeps combos start self results self' results' :
  grid_search_loop solver combos start self results = Returned (self', results') →
  schedule self' = schedule self ∧
  constituent_data self' = constituent_data self ∧
  returns self' = returns self ∧
  (∀ d, is_Some (optimized_portfolios self !! d) →
        is_Some (optimized_portfolios self' !! d)) ∧
  (∀ d, (∀ b s m l key data, (b, s, m, l) ∈ combos →
           (key, data) ∈ constituent_data self →
           friday_of (schedule self) key = Returned d →
           ∃ e, optimize_portfolio solver data ((- b)%R, b) ((- s)%R, s) m l
                = Raised e) →
        optimized_portfolios self' !! d = optimized_portfolios self !! d).
Proof.
  revert self results. induction combos as [|c combos IH]; intros self results H.
  - by inversion H; subst.
  - cbn [grid_search_loop] in H.
    destruct (grid_step solver self start c) as [[self1 row]|] eqn:Hstep; [|done].
    cbn [outcome_bind] in H.
    apply IH in H as (Hs & Hc & Hr & Hkeep & Hfail).
    apply grid_step_fields in Hstep as (_ & Hs1 & Hc1 & Hr1 & Hkeep1 & Hfail1).
    rewrite Hs, Hc, Hr, Hs1, Hc1, Hr1. repeat split.
    + intros d Hd. by apply Hkeep, Hkeep1.
    + intros d Hall. rewrite Hfail, Hfail1; [done| |].
      * destruct c as [[[b s] m] l]. intros key data Hin Hk.
        apply (Hall b s m l key data); [left|done..].
      * intros b s m l key data Hin Hk Hd. rewrite Hs1, Hc1 in *.
        apply (Hall b s m l key data); [by right|done..].
Qed.

(** X26.  Over a whole sweep that returns, the schedule, the constituent
    data and the return table stay as they were, no date ever leaves the map
    of optimized portfolios, and a date whose optimization fails under every
    combination of the sweep ends with the entry it had before the sweep. *)
Theorem grid_search_never_drops_a_portfolio self bl sl ms ls start self' results :
  grid_search solver self bl sl ms ls start = Returned (self', results) →
  schedule self' = schedule self ∧
  constituent_data self' = constituent_data self ∧
  returns self' = returns self ∧
  (∀ d, is_Some (optimized_portfolios self !! d) →
        is_Some (optimized_portfolios self' !! d)) ∧
  (∀ d, (∀ b s m l key data, (b, s, m, l) ∈ param_combinations bl sl ms ls →
           (key, data) ∈ constituent_data self →
           friday_of (schedule self) key = Returned d →
           ∃ e, optimize_portfolio solver data ((- b)%R, b) ((- s)%R, s) m l
                = Raised e) →
        optimized_portfolios self' !! d = optimized_portfolios self !! d).
Proof. intros H. by apply grid_search_loop_keeps in H. Qed.

End sweep.

Local Open Scope R_scope.

Lemma two_step_sweep :
  ∃ self' results,
    grid_search samples.cap_sensitive samples.fresh [1/100] [1/100] [1; 1/2] [false] 10
      = Returned (self', results).
Proof.
  unfold grid_search, param_combinations. cbn [mbind list_bind app].
  cbn [grid_search_loop].
  destruct sweep_first_combination as (self1 & row1 & -> & Hs & Hc & Hr & Ho).
  cbn [outcome_bind]. destruct self1 as [sch cd ret ops sols csr sr].
  cbn in Hs, Hc, Hr, Ho. subst.
  unfold grid_step, create_portfolios.
  cbn [constituent_data schedule optimized_portfolios solutions create_portfolios_loop].
  rewrite pair_universe_small_cap by lra.
  eexists _, _. vm_compute. reflexivity.
Defined.

Lemma grid_search_rows_witness :
  ∃ self' results,
    grid_search samples.cap_sensitive samples.fresh [1/100] [1/100] [1; 1/2] [false] 10
      = Returned (self', results) ∧
    map grid_params results = [ (1/100, 1/100, 1, false); (1/100, 1/100, 1/2, false) ].
Proof.
  destruct two_step_sweep as (self' & results & Hrun).
  exists self', results. split; [exact Hrun|].
  apply (grid_search_rows samples.cap_sensitive samples.fresh
           [1/100] [1/100] [1; 1/2] [false] 10 self' results Hrun).
Defined.

Lemma stale_sweep :
  ∃ self' results,
    grid_search samples.cap_sensitive samples.mid_sweep [1/100] [1/100] [1/2] [false] 10
      = Returned (self', results).
Proof.
  unfold grid_search, param_combinations. cbn [mbind list_bind app].
  cbn [grid_search_loop].
  unfold grid_step, create_portfolios.
  cbn [samples.mid_sweep constituent_data schedule optimized_portfolios solutions
       create_portfolios_loop].
  rewrite pair_universe_small_cap by lra.
  eexists _, _. vm_compute. reflexivity.
Defined.

Lemma grid_search_never_drops_a_portfolio_witness :
  ∃ self' results,
    grid_search samples.cap_sensitive samples.mid_sweep [1/100] [1/100] [1/2] [false] 10
      = Returned (self', results) ∧
    optimized_portfolios self' !! 11%Z = Some [ samples.holding "A" 2 ].
Proof.
  destruct stale_sweep as (self' & results & Hrun).
  exists self', results. split; [exact Hrun|].
  destruct (grid_search_never_drops_a_portfolio samples.cap_sensitive samples.mid_sweep
              [1/100] [1/100] [1/2] [false] 10 self' results Hrun)
    as (_ & _ & _ & _ & Hfail).
  rewrite (Hfail 11%Z); [reflexivity|].
  intros b s m l key data Hin Hdata _.
  apply list_elem_of_singleton in Hin. inversion Hin; subst.
  apply list_elem_of_singleton in Hdata. inversion Hdata; subst.
  eexists. apply pair_universe_small_cap. lra.
Defined.

Local Close Scope R_scope.
